(** * MI-Bot: the interview controller of [src/App.tsx]

    [App] is a React function component.  Three facts about how such a
    component runs shape the whole embedding, and every definition below is
    written against them.

    - A render is one execution of the body of [App].  The identifiers
      [conversation], [questionCount], [isProcessing] and
      [isInterviewActive] are constants of that execution ([const [x, setX] =
      useState(..)]); the functions [speak], [startListening],
      [sendToGemini], ... declared in the body are closures over these
      constants.  A setter never changes the constants of a closure that is
      already running or already registered as a callback: it writes to
      React's store, and the next render reads the store.
    - The buttons are re-bound at every render, so a click runs the handler of
      the latest render.  Callbacks handed to the platform
      ([recognition.onresult], [utterance.onend], the [setTimeout] callback,
      the continuation after [await fetch]) keep the closure of the render
      that created them.
    - The body of [App] executes [new window.webkitSpeechRecognition()] (lines
      14-19), so every render owns a recognizer object of its own.

    A handler is therefore a function of the render it belongs to (type
    [Render]) acting on the world (type [World]): it reads state from its
    render and writes state to the store. *)

From Stdlib Require Import ZArith QArith List String Bool Lia.
Import ListNotations.
Open Scope string_scope.
Open Scope Z_scope.
Open Scope list_scope.

#[local] Set Warnings "-register-all".

(** ** Values

    [res.json()] yields an arbitrary JSON value and the optional chain of line
    98 may also yield [undefined]; the TypeScript annotation [string] on
    [aiReply] is erased at run time, so whatever the chain yields is stored.
    A number is represented by the rational it denotes. *)

Inductive Js : Type :=
| JUndefined
| JNull
| JBool (b : bool)
| JNum (q : Q)
| JStr (s : string)
| JArr (items : list Js)
| JObj (fields : list (string * Js)).

Inductive Role : Type := user | model.

Record Message : Type := mkMessage { role : Role; text : Js }.

(** The six [useState] cells of lines 5-10. *)
Record State : Type := mkState {
  conversation : list Message;
  userText : string;
  aiText : Js;
  questionCount : Z;
  isProcessing : bool;
  isInterviewActive : bool
}.

(** One execution of the body of [App]: the recognizer created by it (absent
    when the browser offers neither constructor, lines 14-19) and the state
    constants its closures captured. *)
Record Render : Type := mkRender {
  recognition : option nat;
  snap : State
}.

(** One element of [contents] in the request body (lines 85-91). *)
Record Part : Type := mkPart { part_text : Js }.
Record Content : Type := mkContent { content_role : Role; parts : list Part }.

(** Calls made to the platform, in the order they were made. *)
Inductive Effect : Type :=
| RecognitionStart (r : nat)
| RecognitionStop (r : nat)
| SynthesisSpeak (utterance : Js)
| SynthesisCancel
| SetTimeout (ms : Z)
| Fetch (contents : list Content)
| ConsoleError.

(** The browser tab.  [store] is React's state with every queued update
    applied; [rendered] is the latest render; the four queues hold what the
    platform owes the page: recognizers that were started and have not ended,
    utterances not yet finished, timers not yet fired and requests not yet
    settled, each with the closure it will call back. *)
Record World : Type := mkWorld {
  store : State;
  rendered : Render;
  renders : nat;
  capable : bool;
  dirty : bool;
  listening : list Render;
  utterances : list (Js * Render);
  timers : list Render;
  inflight : list (Render * list Message);
  log : list Effect
}.

Definition with_store (f : State -> State) (w : World) : World :=
  mkWorld (f (store w)) (rendered w) (renders w) (capable w) true
          (listening w) (utterances w) (timers w) (inflight w) (log w).

Definition with_listening (l : list Render) (w : World) : World :=
  mkWorld (store w) (rendered w) (renders w) (capable w) (dirty w)
          l (utterances w) (timers w) (inflight w) (log w).

Definition with_utterances (l : list (Js * Render)) (w : World) : World :=
  mkWorld (store w) (rendered w) (renders w) (capable w) (dirty w)
          (listening w) l (timers w) (inflight w) (log w).

Definition with_timers (l : list Render) (w : World) : World :=
  mkWorld (store w) (rendered w) (renders w) (capable w) (dirty w)
          (listening w) (utterances w) l (inflight w) (log w).

Definition with_inflight (l : list (Render * list Message)) (w : World) : World :=
  mkWorld (store w) (rendered w) (renders w) (capable w) (dirty w)
          (listening w) (utterances w) (timers w) l (log w).

Definition emit (e : Effect) (w : World) : World :=
  mkWorld (store w) (rendered w) (renders w) (capable w) (dirty w)
          (listening w) (utterances w) (timers w) (inflight w) (log w ++ [e]).

(** A handler is a sequence of statements, each a world transformer. *)
Definition Handler : Type := World -> World.

Definition skip : Handler := fun w => w.

Definition seq (h1 h2 : Handler) : Handler := fun w => h2 (h1 w).

Declare Scope handler_scope.
Delimit Scope handler_scope with handler.
Bind Scope handler_scope with Handler.
Notation "h1 ;; h2" := (seq h1 h2)
  (at level 61, right associativity) : handler_scope.
Open Scope handler_scope.

(** ** Setters *)

Definition setConversation (c : list Message) : Handler :=
  with_store (fun s => mkState c (userText s) (aiText s) (questionCount s)
                               (isProcessing s) (isInterviewActive s)).

Definition setUserText (t : string) : Handler :=
  with_store (fun s => mkState (conversation s) t (aiText s) (questionCount s)
                               (isProcessing s) (isInterviewActive s)).

Definition setAiText (t : Js) : Handler :=
  with_store (fun s => mkState (conversation s) (userText s) t (questionCount s)
                               (isProcessing s) (isInterviewActive s)).

(** [setQuestionCount] is called with a value (lines 119, 128) and with an
    updater ([prev => prev + 1], line 107); the updater reads the store, not
    the render. *)
Definition setQuestionCount (f : Z -> Z) : Handler :=
  with_store (fun s => mkState (conversation s) (userText s) (aiText s)
                               (f (questionCount s))
                               (isProcessing s) (isInterviewActive s)).

Definition setIsProcessing (b : bool) : Handler :=
  with_store (fun s => mkState (conversation s) (userText s) (aiText s)
                               (questionCount s) b (isInterviewActive s)).

Definition setIsInterviewActive (b : bool) : Handler :=
  with_store (fun s => mkState (conversation s) (userText s) (aiText s)
                               (questionCount s) (isProcessing s) b).

(** ** Platform objects *)

Definition same_recognizer (r : nat) (e : Render) : bool :=
  match recognition e with
  | Some r' => Nat.eqb r r'
  | None => false
  end.

Definition is_listening (r : nat) (w : World) : bool :=
  existsb (same_recognizer r) (listening w).

(** [recognition.start()].  On a recognizer that is already started the call
    throws; it is made from a timer callback, so nothing else happens. *)
Definition recognition_start (e : Render) (r : nat) : Handler := fun w =>
  if is_listening r w then emit (RecognitionStart r) w
  else with_listening (listening w ++ [e]) (emit (RecognitionStart r) w).

(** [recognition.stop()]: ends the session of this recognizer and of no
    other; a recognizer that is not started ignores it. *)
Definition recognition_stop (r : nat) : Handler := fun w =>
  with_listening (filter (fun e => negb (same_recognizer r e)) (listening w))
                 (emit (RecognitionStop r) w).

(** [speechSynthesis.speak(utterance)]: the utterance joins the queue, with
    the closure of its [onend]. *)
Definition synthesis_speak (e : Render) (t : Js) : Handler := fun w =>
  with_utterances (utterances w ++ [(t, e)]) (emit (SynthesisSpeak t) w).

(** [speechSynthesis.cancel()]: the queue is emptied and no [onend] of a
    removed utterance runs. *)
Definition synthesis_cancel : Handler := fun w =>
  with_utterances [] (emit SynthesisCancel w).

(** [setTimeout(() => { startListening(); }, 800)]. *)
Definition set_timeout (e : Render) (ms : Z) : Handler := fun w =>
  with_timers (timers w ++ [e]) (emit (SetTimeout ms) w).

(** [await fetch(..)]: the request leaves and the rest of [sendToGemini]
    waits, holding its render and [updatedConversation]. *)
Definition fetch (e : Render) (updatedConversation : list Message)
    (contents : list Content) : Handler := fun w =>
  with_inflight (inflight w ++ [(e, updatedConversation)])
                (emit (Fetch contents) w).

(** ** The reply path (lines 97-99) *)

(** [v.k] on a value that is neither [null] nor [undefined], for the keys the
    chain uses ([candidates], [content], [parts], [text]): none of them is a
    property of a number, boolean, string or array.  [JSON.parse] keeps the
    last of several equal keys. *)
Definition field (k : string) (v : Js) : Js :=
  match v with
  | JObj fs =>
      fold_left (fun found kv => if String.eqb k (fst kv) then snd kv else found)
                fs JUndefined
  | _ => JUndefined
  end.

(** [v[0]]: the first element of an array, the first character of a string,
    the property ["0"] of an object. *)
Definition index0 (v : Js) : Js :=
  match v with
  | JArr items => hd JUndefined items
  | JStr (String c _) => JStr (String c EmptyString)
  | JObj _ => field "0" v
  | _ => JUndefined
  end.

(** Optional chaining [v?.access]. *)
Definition chain (v : Js) (access : Js -> Js) : Js :=
  match v with
  | JUndefined | JNull => JUndefined
  | _ => access v
  end.

Notation "v ?> access" := (chain v access) (at level 50, left associativity).

Definition reply_path (data : Js) : Js :=
  data ?> field "candidates" ?> index0 ?> field "content" ?> field "parts"
       ?> index0 ?> field "text".

Definition truthy (v : Js) : bool :=
  match v with
  | JUndefined | JNull => false
  | JBool b => b
  | JNum q => negb (Qeq_bool q 0)
  | JStr s => negb (String.eqb s "")
  | JArr _ | JObj _ => true
  end.

Definition fallback : string := "Sorry, I couldn't understand.".

Definition aiReply (data : Js) : Js :=
  if truthy (reply_path data) then reply_path data else JStr fallback.

(** ** The closures of one render *)

Definition systemPrompt : string := "
You are an AI interviewer.
- Ask one unique question at a time.
- Never repeat a previous question from this conversation.
- After each answer, respond with a short acknowledgment, then the next question.
- Stop after 5 total questions and thank the candidate politely.
".

Definition firstQuestion : string :=
  "Hello! Let's start the interview. Tell me about yourself.".

Definition endedText : string := "Interview ended. Thank you!".

Section Closures.

Variable e : Render.

(** Lines 37-39. *)
Definition startListening : Handler :=
  match recognition e with
  | Some r =>
      if negb (isProcessing (snap e)) && isInterviewActive (snap e)
      then recognition_start e r
      else skip
  | None => skip
  end.

(** Lines 41-43. *)
Definition stopListening : Handler :=
  match recognition e with
  | Some r => recognition_stop r
  | None => skip
  end.

(** Lines 51-57: the [onend] callback of an utterance. *)
Definition utterance_onend : Handler :=
  if isInterviewActive (snap e) && (questionCount (snap e) <? 5)
  then set_timeout e 800
  else skip.

(** Lines 45-59. *)
Definition speak (t : Js) : Handler :=
  if negb (isInterviewActive (snap e)) then skip
  else stopListening ;; synthesis_speak e t.

(** Lines 85-91. *)
Definition contents (updatedConversation : list Message) : list Content :=
  mkContent user [mkPart (JStr systemPrompt)]
  :: map (fun msg => mkContent (role msg) [mkPart (text msg)])
         updatedConversation.

(** Lines 61-94: [sendToGemini] up to the first [await]. *)
Definition sendToGemini (message : string) : Handler :=
  if isProcessing (snap e) || negb (isInterviewActive (snap e)) then skip
  else
    setIsProcessing true ;;
    let updatedConversation :=
      conversation (snap e) ++ [mkMessage user (JStr message)] in
    fetch e updatedConversation (contents updatedConversation).

(** Lines 25-30: [recognition.onresult]. *)
Definition recognition_onresult (t : string) : Handler :=
  setUserText t ;;
  stopListening ;;
  sendToGemini t.

(** Lines 32-34: [recognition.onend] has an empty body. *)
Definition recognition_onend : Handler := skip.

(** Lines 116-124. *)
Definition startInterview : Handler :=
  setIsInterviewActive true ;;
  setConversation [] ;;
  setQuestionCount (fun _ => 1) ;;
  setAiText (JStr firstQuestion) ;;
  speak (JStr firstQuestion).

(** Lines 126-132. *)
Definition stopInterview : Handler :=
  setIsInterviewActive false ;;
  setQuestionCount (fun _ => 5) ;;
  stopListening ;;
  synthesis_cancel ;;
  setAiText (JStr endedText).

End Closures.

(** How the two [await]s of lines 79-96 end: [fetch] rejects (no network),
    [res.json()] rejects (the body is not JSON), or the body parses.  A reply
    with an error status and a JSON body is of the third kind. *)
Inductive Outcome : Type :=
| FetchRejected
| BodyRejected
| Parsed (data : Js).

(** Lines 96-113: [sendToGemini] from the first [await] on.  Both rejections
    are thrown inside [try] and land in [catch]; [finally] runs on every
    path. *)
Definition sendToGemini_resume (e : Render)
    (updatedConversation : list Message) (o : Outcome) : Handler :=
  match o with
  | Parsed data =>
      setConversation (updatedConversation ++ [mkMessage model (aiReply data)]) ;;
      setAiText (aiReply data) ;;
      setQuestionCount (fun prev => prev + 1) ;;
      speak e (aiReply data)
  | FetchRejected | BodyRejected => emit ConsoleError
  end ;;
  setIsProcessing false.

(** ** The event loop *)

Definition new_recognizer (cap : bool) (id : nat) : option nat :=
  if cap then Some id else None.

Definition initial_state : State := mkState [] "" (JStr "") 0 false false.

(** The tab after the first render; [cap] tells whether the browser has a
    speech recognizer. *)
Definition initial_world (cap : bool) : World :=
  mkWorld initial_state (mkRender (new_recognizer cap 0) initial_state)
          0 cap false [] [] [] [] [].

(** After a callback that called a setter React renders again: the body of
    [App] runs on the store, creating a new recognizer and new closures.
    (React may skip a render when every setter stored the value that was
    already there; the render skipped would capture the same state.) *)
Definition commit (w : World) : World :=
  if dirty w then
    mkWorld (store w)
            (mkRender (new_recognizer (capable w) (S (renders w))) (store w))
            (S (renders w)) (capable w) false
            (listening w) (utterances w) (timers w) (inflight w) (log w)
  else w.

Definition drop_nth {A : Type} (i : nat) (l : list A) : list A :=
  firstn i l ++ skipn (S i) l.

(** What can happen to the page: a click on one of the two buttons, the end
    of the utterance being spoken, the expiry of a pending timer, a final
    result from a recognizer that is listening, the end of a recognizer that
    heard nothing, the settling of a pending request. *)
Inductive Event : Type :=
| ClickStart
| ClickStop
| UtteranceEnd
| TimerFires (i : nat)
| Result (r : nat) (transcript : string)
| Silence (r : nat)
| Reply (i : nat) (o : Outcome).

(** One turn of the event loop; [None] when the platform cannot produce the
    event in this world. *)
Definition step (ev : Event) (w : World) : option World :=
  match ev with
  | ClickStart => Some (commit (startInterview (rendered w) w))
  | ClickStop => Some (commit (stopInterview (rendered w) w))
  | UtteranceEnd =>
      match utterances w with
      | [] => None
      | (_, e) :: rest => Some (commit (utterance_onend e (with_utterances rest w)))
      end
  | TimerFires i =>
      match nth_error (timers w) i with
      | None => None
      | Some e =>
          Some (commit (startListening e (with_timers (drop_nth i (timers w)) w)))
      end
  | Result r t =>
      match find (same_recognizer r) (listening w) with
      | None => None
      | Some e => Some (commit (recognition_onresult e t w))
      end
  | Silence r =>
      if is_listening r w then
        Some (commit (recognition_onend
                        (with_listening
                           (filter (fun e => negb (same_recognizer r e))
                                   (listening w)) w)))
      else None
  | Reply i o =>
      match nth_error (inflight w) i with
      | None => None
      | Some (e, updatedConversation) =>
          Some (commit (sendToGemini_resume e updatedConversation o
                          (with_inflight (drop_nth i (inflight w)) w)))
      end
  end.

Fixpoint run (evs : list Event) (w : World) : option World :=
  match evs with
  | [] => Some w
  | ev :: rest =>
      match step ev w with
      | Some w' => run rest w'
      | None => None
      end
  end.

Inductive reachable (cap : bool) : World -> Prop :=
| reach_init : reachable cap (initial_world cap)
| reach_step ev w w' :
    reachable cap w -> step ev w = Some w' -> reachable cap w'.

(** The response shape the endpoint documents. *)
Definition payload (t : Js) : Js :=
  JObj [("candidates",
         JArr [JObj [("content", JObj [("parts", JArr [JObj [("text", t)]])])]])].

Definition turn (r : nat) (answer : string) (o : Outcome) : list Event :=
  [UtteranceEnd; TimerFires 0; Result r answer; Reply 0 o].

(** ** Classifying outcomes and naming sessions *)

Definition thrown (o : Outcome) : bool :=
  match o with
  | Parsed _ => false
  | FetchRejected | BodyRejected => true
  end.

(** A body that parses but carries no usable reply text. *)
Definition malformed (o : Outcome) : bool :=
  match o with
  | Parsed data => negb (truthy (reply_path data))
  | FetchRejected | BodyRejected => false
  end.

Definition question (t : string) : Outcome := Parsed (payload (JStr t)).

(** Two clicks on "Start Interview": the first activates the session, the
    second is the first one whose handler sees it active. *)
Definition opening : list Event := [ClickStart; ClickStart].

(** The opening, the end of the first utterance, the pause, one answer. *)
Definition first_answer : list Event :=
  opening ++ [UtteranceEnd; TimerFires 0; Result 1 "I am Ada."].

Definition session (evs : list Event) : option World :=
  run evs (initial_world true).

(** The render in which the second click of [opening] runs, and from which
    every later callback of the session descends. *)
Definition first_render : Render :=
  mkRender (Some 1%nat) (mkState [] "" (JStr firstQuestion) 1 false true).

(** The page is speaking on behalf of [first_render] and owes nothing else. *)
Definition speaking_for_first_render (w : World) : Prop :=
  (exists t, utterances w = [(t, first_render)])
  /\ timers w = [] /\ listening w = [] /\ inflight w = []
  /\ dirty w = false
  /\ isInterviewActive (store w) = true.

Definition answers (n : nat) : list Event :=
  List.concat (repeat (turn 1 "Well." (question "And then?")) n).

(** The opening followed by five answered questions. *)
Definition five_answers : list Event :=
  opening
  ++ turn 1 "I am Ada." (question "Question 2?")
  ++ turn 1 "I write programs." (question "Question 3?")
  ++ turn 1 "Mostly proofs." (question "Question 4?")
  ++ turn 1 "Since 1843." (question "Question 5?")
  ++ turn 1 "No questions." (question "Question 6?").

(** The opening, then the page listening for the first answer. *)
Definition awaiting_answer : list Event :=
  opening ++ [UtteranceEnd; TimerFires 0].

(** The opening, then the 800 ms pause after the first utterance. *)
Definition pausing : list Event := opening ++ [UtteranceEnd].

(** Three clicks on "Start Interview" in a row; the first answer is captured
    while the second opening utterance is still being spoken. *)
Definition eager_start : list Event :=
  [ClickStart; ClickStart; ClickStart;
   UtteranceEnd; TimerFires 0; Result 1 "I am Ada.";
   UtteranceEnd; TimerFires 0].

(** One full turn, then the page listening for the second answer. *)
Definition awaiting_second_answer : list Event :=
  opening ++ turn 1 "I am Ada." (question "Question 2?")
  ++ [UtteranceEnd; TimerFires 0].

(** ** The invariant of the event loop *)

(** The recognizer of [e], if any, was created before render [n]. *)
Definition older (n : nat) (e : Render) : Prop :=
  forall r, recognition e = Some r -> (r < n)%nat.

Definition sees_active (e : Render) : Prop := isInterviewActive (snap e) = true.

Definition sees_idle (e : Render) : Prop := isProcessing (snap e) = false.

(** What holds of the renders kept in the four queues: each belongs to a
    render older than [n] that saw the session active; a recognizer is only
    started, and a request only sent, by a render that also saw it idle. *)
Record queues_ok (n : nat) (w : World) : Prop := mkQueuesOk {
  listening_ok :
    Forall (fun e => older n e /\ sees_active e /\ sees_idle e) (listening w);
  utterances_ok :
    Forall (fun u => older n (snd u) /\ sees_active (snd u)) (utterances w);
  timers_ok :
    Forall (fun e => older n e /\ sees_active e) (timers w);
  inflight_ok :
    Forall (fun p => older n (fst p) /\ sees_active (fst p) /\ sees_idle (fst p))
           (inflight w)
}.

(** What holds between two events. *)
Record consistent (w : World) : Prop := mkConsistent {
  is_clean : dirty w = false;
  snap_is_store : snap (rendered w) = store w;
  own_recognizer :
    recognition (rendered w) = new_recognizer (capable w) (renders w);
  queues : queues_ok (renders w) w
}.

(** A handler respects bound [n] when it keeps the queues in order, leaves
    the render bookkeeping to [commit], and touches the store only through a
    setter. *)
Definition respects (n : nat) (h : Handler) : Prop :=
  forall w, queues_ok n w ->
    queues_ok n (h w)
    /\ renders (h w) = renders w
    /\ capable (h w) = capable w
    /\ rendered (h w) = rendered w
    /\ (dirty w = true -> dirty (h w) = true)
    /\ (dirty (h w) = false -> store (h w) = store w).

(** ** The view (lines 172-173)

    [{userText && <p ..>.. You: {userText}</p>}] and the same for [aiText]:
    the value of [x && element] is [x] itself when [x] is falsy and the
    element otherwise. *)

Inductive Child : Type :=
| Bare (v : Js)
| Paragraph (label : string) (v : Js).

Definition and_then (v : Js) (element : Child) : Child :=
  if truthy v then element else Bare v.

Definition you_line (s : State) : Child :=
  and_then (JStr (userText s)) (Paragraph "🗣 You: " (JStr (userText s))).


(** ** What the store and the queues always look like *)

(** A transcript made of exchanges: a candidate turn holding a string, then
    an interviewer turn holding a truthy value. *)
Fixpoint paired (c : list Message) : bool :=
  match c with
  | [] => true
  | mkMessage user (JStr _) :: mkMessage model v :: rest =>
      truthy v && paired rest
  | _ => false
  end.

Definition store_ok (s : State) : Prop :=
  paired (conversation s) = true
  /\ (aiText s = JStr "" \/ truthy (aiText s) = true)
  /\ 0 <= questionCount s.

Definition effect_ok (ef : Effect) : Prop :=
  match ef with
  | Fetch cs =>
      exists c t, paired c = true
                  /\ cs = contents (c ++ [mkMessage user (JStr t)])
  | SynthesisSpeak v => truthy v = true
  | SetTimeout ms => ms = 800
  | _ => True
  end.

Definition request_ok (p : Render * list Message) : Prop :=
  store_ok (snap (fst p))
  /\ exists t, snd p = conversation (snap (fst p)) ++ [mkMessage user (JStr t)].

Record sound (w : World) : Prop := mkSound {
  store_sound : store_ok (store w);
  listening_sound : Forall (fun e => store_ok (snap e)) (listening w);
  utterances_sound : Forall (fun u => store_ok (snap (snd u))) (utterances w);
  timers_sound : Forall (fun e => store_ok (snap e)) (timers w);
  inflight_sound : Forall request_ok (inflight w);
  busy_sound : isProcessing (store w) = true -> inflight w <> [];
  log_sound : Forall effect_ok (log w)
}.

(** A page in a browser without speech recognition. *)
Definition needs_recognizer (ef : Effect) : bool :=
  match ef with
  | RecognitionStart _ | RecognitionStop _ | Fetch _ => true
  | _ => false
  end.

Record deaf (w : World) : Prop := mkDeaf {
  deaf_capable : capable w = false;
  deaf_listening : listening w = [];
  deaf_inflight : inflight w = [];
  deaf_transcript : conversation (store w) = [];
  deaf_idle : isProcessing (store w) = false;
  deaf_utterances : Forall (fun u => recognition (snd u) = None) (utterances w);
  deaf_timers : Forall (fun e => recognition e = None) (timers w);
  deaf_log : existsb needs_recognizer (log w) = false
}.

(** A response with usage data, two parts and two candidates. *)
Definition sample_response : Js :=
  JObj [("usageMetadata", JObj [("totalTokenCount", JNum (57 # 1))]);
        ("candidates",
         JArr [JObj [("finishReason", JStr "STOP");
                     ("content",
                      JObj [("role", JStr "model");
                            ("parts", JArr [JObj [("text", JStr "Why?")];
                                            JObj [("text", JStr "How?")]])])];
               JObj [("content",
                      JObj [("parts", JArr [JObj [("text", JStr "No.")]])])]])].

(** * Properties *)

(** ** The reply path *)

Lemma reply_path_payload (t : Js) : reply_path (payload t) = t.
Proof. reflexivity. Qed.

Lemma aiReply_text (data : Js) (t : string) :
  reply_path data = JStr t -> t <> "" -> aiReply data = JStr t.
Proof.
  intros Hpath Ht. unfold aiReply. rewrite Hpath. simpl.
  destruct (String.eqb_spec t "") as [E | _]; [contradiction | reflexivity].
Qed.

Lemma aiReply_falsy (data : Js) :
  truthy (reply_path data) = false -> aiReply data = JStr fallback.
Proof. intros H. unfold aiReply. now rewrite H. Qed.

Lemma aiReply_truthy (data : Js) :
  truthy (reply_path data) = true -> aiReply data = reply_path data.
Proof. intros H. unfold aiReply. now rewrite H. Qed.

(** A chain that meets [null] or [undefined] stays [undefined]. *)
Lemma chain_undefined (access : Js -> Js) : JUndefined ?> access = JUndefined.
Proof. reflexivity. Qed.

(** A value that is not an object has no reply: the chain falls through. *)
Lemma reply_path_not_object (data : Js) :
  (forall fs, data <> JObj fs) -> reply_path data = JUndefined.
Proof.
  intros H. destruct data; try reflexivity. now elim (H fields).
Qed.

(** A text that is not a string but is truthy is kept as it is. *)
Example aiReply_number :
  aiReply (payload (JNum (42 # 1))) = JNum (42 # 1).
Proof. reflexivity. Qed.

(** An error body, as the endpoint sends with a failure status, parses and
    has no reply text. *)
Example aiReply_error_body :
  aiReply (JObj [("error", JObj [("code", JNum (429 # 1));
                                 ("status", JStr "RESOURCE_EXHAUSTED")])])
  = JStr fallback.
Proof. reflexivity. Qed.

(** [JSON.parse] keeps the last of two equal keys. *)
Example field_last_wins :
  field "text" (JObj [("text", JStr "a"); ("text", JStr "b")]) = JStr "b".
Proof. reflexivity. Qed.

(** ** What the handlers write to the store *)

Lemma store_commit (w : World) : store (commit w) = store w.
Proof. unfold commit. now destruct (dirty w). Qed.

Lemma store_speak (e : Render) (t : Js) (w : World) :
  store (speak e t w) = store w.
Proof.
  unfold speak, seq, skip, stopListening.
  destruct (isInterviewActive (snap e)); simpl; [| reflexivity].
  now destruct (recognition e).
Qed.

Lemma store_stopListening (e : Render) (w : World) :
  store (stopListening e w) = store w.
Proof. unfold stopListening, skip. now destruct (recognition e). Qed.

Lemma commit_queues (w : World) :
  listening (commit w) = listening w /\ utterances (commit w) = utterances w
  /\ timers (commit w) = timers w /\ inflight (commit w) = inflight w
  /\ log (commit w) = log w /\ capable (commit w) = capable w.
Proof. unfold commit. destruct (dirty w); repeat split. Qed.

Lemma nth_error_snoc {A : Type} (l : list A) (x : A) :
  nth_error (l ++ [x]) (List.length l) = Some x.
Proof. induction l as [| y l IH]; [reflexivity | exact IH]. Qed.

Lemma drop_nth_snoc {A : Type} (l : list A) (x : A) :
  drop_nth (List.length l) (l ++ [x]) = l.
Proof.
  unfold drop_nth. induction l as [| y l IH]; [reflexivity |].
  simpl. f_equal. exact IH.
Qed.

(** The synchronous half of [sendToGemini], once its guard lets it pass. *)
Lemma onresult_when_armed (e : Render) (t : string) (w : World) :
  isInterviewActive (snap e) = true ->
  isProcessing (snap e) = false ->
  let updatedConversation := conversation (snap e) ++ [mkMessage user (JStr t)] in
  let w' := recognition_onresult e t w in
  inflight w' = inflight w ++ [(e, updatedConversation)]
  /\ conversation (store w') = conversation (store w)
  /\ questionCount (store w') = questionCount (store w)
  /\ isInterviewActive (store w') = isInterviewActive (store w)
  /\ isProcessing (store w') = true
  /\ utterances w' = utterances w.
Proof.
  intros Hact Hproc. unfold recognition_onresult, sendToGemini, seq.
  rewrite Hact, Hproc. simpl.
  unfold stopListening, skip. destruct (recognition e); repeat split.
Qed.

(** The second half on a parsed body. *)
Lemma resume_parsed (e : Render) (uc : list Message) (data : Js) (w : World) :
  let w' := sendToGemini_resume e uc (Parsed data) w in
  conversation (store w') = uc ++ [mkMessage model (aiReply data)]
  /\ aiText (store w') = aiReply data
  /\ questionCount (store w') = questionCount (store w) + 1
  /\ isProcessing (store w') = false
  /\ isInterviewActive (store w') = isInterviewActive (store w)
  /\ userText (store w') = userText (store w).
Proof.
  unfold sendToGemini_resume, seq. simpl.
  rewrite store_speak. repeat split.
Qed.

(** The second half when one of the two [await]s throws. *)
Lemma resume_thrown (e : Render) (uc : list Message) (o : Outcome) (w : World) :
  o = FetchRejected \/ o = BodyRejected ->
  let w' := sendToGemini_resume e uc o w in
  store w' = mkState (conversation (store w)) (userText (store w))
                     (aiText (store w)) (questionCount (store w)) false
                     (isInterviewActive (store w))
  /\ log w' = log w ++ [ConsoleError]
  /\ utterances w' = utterances w
  /\ timers w' = timers w
  /\ listening w' = listening w.
Proof. intros [-> | ->]; repeat split. Qed.

(** Whether the reply is spoken is decided by the render of the request. *)
Lemma resume_parsed_speech (e : Render) (uc : list Message) (data : Js) (w : World) :
  utterances (sendToGemini_resume e uc (Parsed data) w) =
  if isInterviewActive (snap e)
  then utterances w ++ [(aiReply data, e)]
  else utterances w.
Proof.
  unfold sendToGemini_resume, seq, speak, skip, stopListening. simpl.
  destruct (isInterviewActive (snap e)); simpl; [| reflexivity].
  now destruct (recognition e).
Qed.

(** ** Failure handling *)

(** C2, as stated, fails: when [fetch] rejects while the first answer awaits
    its reply, the step ends without recording or displaying the fallback
    and without advancing the counter, and nothing is left pending that could
    start the next turn. *)
Lemma C2_rejected_fetch_records_nothing :
  exists w0 w1,
    session first_answer = Some w0
    /\ step (Reply 0 FetchRejected) w0 = Some w1
    /\ ~ In (mkMessage model (JStr fallback)) (conversation (store w1))
    /\ aiText (store w1) <> JStr fallback
    /\ questionCount (store w1) <> questionCount (store w0) + 1
    /\ log w1 = log w0 ++ [ConsoleError]
    /\ utterances w1 = [] /\ timers w1 = [] /\ listening w1 = []
    /\ inflight w1 = [].
Proof.
  eexists. eexists. split; [vm_compute; reflexivity |].
  split; [vm_compute; reflexivity |].
  repeat split; try reflexivity.
  - simpl. tauto.
  - discriminate.
  - discriminate.
Qed.

(** C2, amended.  A response that fails is either a body that parses without
    a usable reply text or a rejection of one of the two [await]s.  In both
    cases the step ends normally and clears the busy flag.  In the first the
    fallback is recorded as the interviewer's turn and displayed, the counter
    advances by exactly one, and the fallback is spoken on behalf of the
    render that sent the request, which keeps the turn loop going.  In the
    second the error is logged and nothing else happens: transcript,
    displayed reply and counter keep their values and nothing is spoken. *)
Theorem C2_failure_handling (e : Render) (uc : list Message) (o : Outcome)
    (w : World) :
  malformed o || thrown o = true ->
  let w' := sendToGemini_resume e uc o w in
  isProcessing (store w') = false
  /\ if thrown o
     then conversation (store w') = conversation (store w)
          /\ aiText (store w') = aiText (store w)
          /\ questionCount (store w') = questionCount (store w)
          /\ log w' = log w ++ [ConsoleError]
          /\ utterances w' = utterances w
     else conversation (store w') = uc ++ [mkMessage model (JStr fallback)]
          /\ aiText (store w') = JStr fallback
          /\ questionCount (store w') = questionCount (store w) + 1
          /\ utterances w' =
             if isInterviewActive (snap e)
             then utterances w ++ [(JStr fallback, e)]
             else utterances w.
Proof.
  intros Hfail w'. subst w'.
  destruct o as [| | data]; simpl thrown; cbv iota.
  - destruct (resume_thrown e uc FetchRejected w) as (Hs & Hl & Hu & _);
      [now left |].
    rewrite Hs. simpl. repeat split; assumption.
  - destruct (resume_thrown e uc BodyRejected w) as (Hs & Hl & Hu & _);
      [now right |].
    rewrite Hs. simpl. repeat split; assumption.
  - simpl in Hfail. rewrite orb_false_r in Hfail.
    apply negb_true_iff in Hfail.
    destruct (resume_parsed e uc data w) as (Hc & Ha & Hq & Hp & _).
    rewrite resume_parsed_speech, Hc, Ha, Hq, Hp.
    rewrite (aiReply_falsy data Hfail). repeat split.
Qed.

Lemma C2_failure_handling_witness :
  let e := mkRender (Some 1%nat) (mkState [] "" (JStr firstQuestion) 1 false true) in
  let o := Parsed (JObj [("error", JObj [("code", JNum (429 # 1))])]) in
  malformed o || thrown o = true
  /\ conversation
       (store (sendToGemini_resume e [mkMessage user (JStr "hi")] o
                 (initial_world true)))
     = [mkMessage user (JStr "hi"); mkMessage model (JStr fallback)].
Proof.
  intros e o. split; [reflexivity |].
  destruct (C2_failure_handling e [mkMessage user (JStr "hi")] o
              (initial_world true)) as (_ & H); [reflexivity |].
  simpl in H. exact (proj1 H).
Defined.

(** C10.  A well-shaped response whose reply text is the empty string is
    treated like a response without reply text: the fallback is what gets
    recorded as the interviewer's turn and what gets displayed. *)
Theorem C10_empty_reply_is_replaced (e : Render) (uc : list Message)
    (data : Js) (w : World) :
  reply_path data = JStr "" ->
  let w' := sendToGemini_resume e uc (Parsed data) w in
  aiReply data = JStr fallback
  /\ conversation (store w') = uc ++ [mkMessage model (JStr fallback)]
  /\ aiText (store w') = JStr fallback.
Proof.
  intros Hpath w'. subst w'.
  assert (Hfb : aiReply data = JStr fallback).
  { apply aiReply_falsy. now rewrite Hpath. }
  destruct (resume_parsed e uc data w) as (Hc & Ha & _).
  rewrite Hc, Ha, Hfb. auto.
Qed.

Lemma C10_empty_reply_is_replaced_witness :
  reply_path (payload (JStr "")) = JStr ""
  /\ aiText (store (sendToGemini_resume (rendered (initial_world true)) []
                      (Parsed (payload (JStr ""))) (initial_world true)))
     = JStr fallback.
Proof.
  split; [reflexivity |].
  exact (proj2 (proj2 (C10_empty_reply_is_replaced
                         (rendered (initial_world true)) []
                         (payload (JStr "")) (initial_world true) eq_refl))).
Defined.

(** ** A well-formed reply *)

Lemma find_same_recognizer (r : nat) (l : list Render) (e : Render) :
  find (same_recognizer r) l = Some e -> In e l /\ recognition e = Some r.
Proof.
  intros H. apply find_some in H. destruct H as [Hin Hsame]. split; [exact Hin |].
  unfold same_recognizer in Hsame. destruct (recognition e) as [r' |];
    [| discriminate].
  apply Nat.eqb_eq in Hsame. now subst.
Qed.

(** X12.  An answer is captured by a recognizer whose render saw the
    session active and idle, and the request it causes is answered by the
    payload whose text is "Next question?".  Then the transcript is built
    from the conversation of that render, not from the transcript of the
    store: it becomes that conversation, the candidate's turn and one
    interviewer turn with that text.  The text is displayed, and the counter
    is the counter of the store plus exactly one. *)
Theorem reply_extends_request_transcript (w : World) (r : nat) (e : Render)
    (answer : string) :
  find (same_recognizer r) (listening w) = Some e ->
  isInterviewActive (snap e) = true ->
  isProcessing (snap e) = false ->
  exists w',
    run [Result r answer;
         Reply (List.length (inflight w)) (question "Next question?")] w
    = Some w'
    /\ conversation (store w')
       = (conversation (snap e) ++ [mkMessage user (JStr answer)])
           ++ [mkMessage model (JStr "Next question?")]
    /\ aiText (store w') = JStr "Next question?"
    /\ questionCount (store w') = questionCount (store w) + 1.
Proof.
  intros Hfind Hact Hproc.
  destruct (onresult_when_armed e answer w Hact Hproc)
    as (Hin & _ & Hq & _).
  set (w1 := commit (recognition_onresult e answer w)).
  assert (Hin1 : inflight w1 =
                 inflight w ++ [(e, conversation (snap e)
                                      ++ [mkMessage user (JStr answer)])]).
  { unfold w1. now rewrite (proj1 (proj2 (proj2 (proj2 (commit_queues _))))). }
  assert (Hq1 : questionCount (store w1) = questionCount (store w)).
  { unfold w1. now rewrite store_commit. }
  cbn [run step]. rewrite Hfind. fold w1.
  rewrite Hin1, nth_error_snoc, drop_nth_snoc.
  eexists. split; [reflexivity |].
  rewrite store_commit.
  match goal with
  | |- context [sendToGemini_resume ?e' ?uc ?o ?w0] =>
      destruct (resume_parsed e' uc (payload (JStr "Next question?")) w0)
        as (Hc & Ha & Hn & _)
  end.
  unfold question. rewrite Hc, Ha, Hn. simpl store. rewrite Hq1.
  repeat split.
Qed.

Lemma reply_extends_request_transcript_witness :
  exists w0 w',
    session (opening ++ [UtteranceEnd; TimerFires 0]) = Some w0
    /\ run [Result 1 "I am Ada."; Reply 0 (question "Next question?")] w0
       = Some w'
    /\ conversation (store w')
       = [mkMessage user (JStr "I am Ada.");
          mkMessage model (JStr "Next question?")]
    /\ questionCount (store w') = 2.
Proof.
  eexists. 
  destruct (reply_extends_request_transcript
              (mkWorld (mkState [] "" (JStr firstQuestion) 1 false true)
                 (mkRender (Some 2%nat)
                    (mkState [] "" (JStr firstQuestion) 1 false true))
                 2 true false
                 [mkRender (Some 1%nat)
                    (mkState [] "" (JStr firstQuestion) 1 false true)]
                 [] [] []
                 [RecognitionStop 1; SynthesisSpeak (JStr firstQuestion);
                  SetTimeout 800; RecognitionStart 1])
              1%nat
              (mkRender (Some 1%nat)
                 (mkState [] "" (JStr firstQuestion) 1 false true))
              "I am Ada." eq_refl eq_refl eq_refl)
    as (w' & Hrun & Hc & _ & Hq).
  exists w'. split; [vm_compute; reflexivity |].
  split; [exact Hrun |]. split; [exact Hc | exact Hq].
Defined.

(** ** The invariant *)

Lemma Forall_drop_nth {A : Type} (P : A -> Prop) (i : nat) (l : list A) :
  Forall P l -> Forall P (drop_nth i l).
Proof.
  unfold drop_nth. revert i. induction l as [| x l IH]; intros i H.
  - now destruct i.
  - inversion H as [| ? ? Hx Hl]; subst. destruct i as [| i].
    + exact Hl.
    + simpl. constructor; [exact Hx |]. now apply IH.
Qed.

Lemma Forall_keep {A : Type} (P : A -> Prop) (f : A -> bool) (l : list A) :
  Forall P l -> Forall P (filter f l).
Proof.
  rewrite !Forall_forall. intros H x Hx. apply filter_In in Hx. now apply H.
Qed.

Lemma Forall_nth_error {A : Type} (P : A -> Prop) (i : nat) (l : list A) (x : A) :
  Forall P l -> nth_error l i = Some x -> P x.
Proof.
  rewrite Forall_forall. intros H Hn. apply H. eapply nth_error_In, Hn.
Qed.

Lemma older_S (n : nat) (e : Render) : older n e -> older (S n) e.
Proof. intros H r Hr. specialize (H r Hr). lia. Qed.

Lemma queues_ok_S (n : nat) (w : World) : queues_ok n w -> queues_ok (S n) w.
Proof.
  intros [Hl Hu Ht Hf]. constructor;
    (eapply Forall_impl; [| eassumption]); cbv beta;
    intuition auto using older_S.
Qed.

Lemma rendered_older (w : World) :
  recognition (rendered w) = new_recognizer (capable w) (renders w) ->
  older (S (renders w)) (rendered w).
Proof.
  intros H r Hr. rewrite H in Hr. unfold new_recognizer in Hr.
  destruct (capable w); [| discriminate]. injection Hr as <-. lia.
Qed.

Create HintDb handlers.

Lemma respects_skip (n : nat) : respects n skip.
Proof. intros w H. unfold skip. repeat split; auto; apply H. Qed.

Lemma respects_seq (n : nat) (h1 h2 : Handler) :
  respects n h1 -> respects n h2 -> respects n (h1 ;; h2).
Proof.
  intros H1 H2 w Hw. unfold seq.
  destruct (H1 w Hw) as (Hq1 & Hr1 & Hc1 & Hd1 & Hk1 & Hs1).
  destruct (H2 (h1 w) Hq1) as (Hq2 & Hr2 & Hc2 & Hd2 & Hk2 & Hs2).
  split; [exact Hq2 |]. repeat (split; [congruence || auto |]).
  intros Hclean. rewrite (Hs2 Hclean). apply Hs1.
  destruct (dirty (h1 w)) eqn:E; [| reflexivity].
  rewrite (Hk2 eq_refl) in Hclean. discriminate.
Qed.

(** The primitive statements: each touches one queue or the store. *)
Ltac respects_primitive :=
  let w := fresh "w" in
  intros w [? ? ? ?]; repeat split; simpl; auto; try discriminate;
  try (apply Forall_keep; assumption);
  try (apply Forall_app; split; [assumption | repeat constructor; assumption]).

Lemma respects_with_store (n : nat) (f : State -> State) :
  respects n (with_store f).
Proof. respects_primitive. Qed.

Lemma respects_emit (n : nat) (ef : Effect) : respects n (emit ef).
Proof. respects_primitive. Qed.

Lemma respects_recognition_stop (n r : nat) : respects n (recognition_stop r).
Proof. respects_primitive. Qed.

Lemma respects_recognition_start (n r : nat) (e : Render) :
  older n e -> sees_active e -> sees_idle e ->
  respects n (recognition_start e r).
Proof.
  intros Ho Ha Hi w Hw. unfold recognition_start.
  destruct (is_listening r w); revert w Hw; respects_primitive.
Qed.

Lemma respects_synthesis_speak (n : nat) (e : Render) (t : Js) :
  older n e -> sees_active e -> respects n (synthesis_speak e t).
Proof. intros Ho Ha. respects_primitive. Qed.

Lemma respects_synthesis_cancel (n : nat) : respects n synthesis_cancel.
Proof. respects_primitive. Qed.

Lemma respects_set_timeout (n : nat) (e : Render) (ms : Z) :
  older n e -> sees_active e -> respects n (set_timeout e ms).
Proof. intros Ho Ha. respects_primitive. Qed.

Lemma respects_fetch (n : nat) (e : Render) (uc : list Message)
    (cs : list Content) :
  older n e -> sees_active e -> sees_idle e -> respects n (fetch e uc cs).
Proof. intros Ho Ha Hi. respects_primitive. Qed.

#[local] Hint Resolve respects_skip respects_seq respects_with_store
  respects_emit respects_recognition_stop respects_recognition_start
  respects_synthesis_speak respects_synthesis_cancel respects_set_timeout
  respects_fetch : handlers.

Lemma respects_stopListening (n : nat) (e : Render) :
  respects n (stopListening e).
Proof. unfold stopListening. destruct (recognition e); auto with handlers. Qed.

#[local] Hint Resolve respects_stopListening : handlers.

Lemma respects_startListening (n : nat) (e : Render) :
  older n e -> respects n (startListening e).
Proof.
  intros Ho. unfold startListening. destruct (recognition e); auto with handlers.
  destruct (isProcessing (snap e)) eqn:Hp, (isInterviewActive (snap e)) eqn:Ha;
    simpl; auto with handlers.
Qed.

Lemma respects_utterance_onend (n : nat) (e : Render) :
  older n e -> respects n (utterance_onend e).
Proof.
  intros Ho. unfold utterance_onend.
  destruct (isInterviewActive (snap e)) eqn:Ha,
           (questionCount (snap e) <? 5); simpl; auto with handlers.
Qed.

Lemma respects_speak (n : nat) (e : Render) (t : Js) :
  older n e -> respects n (speak e t).
Proof.
  intros Ho. unfold speak.
  destruct (isInterviewActive (snap e)) eqn:Ha; simpl; auto with handlers.
Qed.

#[local] Hint Resolve respects_startListening respects_utterance_onend
  respects_speak : handlers.

Lemma respects_sendToGemini (n : nat) (e : Render) (message : string) :
  older n e -> respects n (sendToGemini e message).
Proof.
  intros Ho. unfold sendToGemini, setIsProcessing.
  destruct (isProcessing (snap e)) eqn:Hp, (isInterviewActive (snap e)) eqn:Ha;
    simpl; auto with handlers.
Qed.

#[local] Hint Resolve respects_sendToGemini : handlers.

Lemma respects_recognition_onresult (n : nat) (e : Render) (t : string) :
  older n e -> respects n (recognition_onresult e t).
Proof.
  intros Ho. unfold recognition_onresult, setUserText. auto with handlers.
Qed.

Lemma respects_startInterview (n : nat) (e : Render) :
  older n e -> respects n (startInterview e).
Proof.
  intros Ho. unfold startInterview, setIsInterviewActive, setConversation,
    setQuestionCount, setAiText.
  auto 10 with handlers.
Qed.

Lemma respects_stopInterview (n : nat) (e : Render) :
  respects n (stopInterview e).
Proof.
  unfold stopInterview, setIsInterviewActive, setQuestionCount, setAiText.
  auto 10 with handlers.
Qed.

Lemma respects_sendToGemini_resume (n : nat) (e : Render)
    (uc : list Message) (o : Outcome) :
  older n e -> respects n (sendToGemini_resume e uc o).
Proof.
  intros Ho. unfold sendToGemini_resume, setConversation, setAiText,
    setQuestionCount, setIsProcessing.
  destruct o; auto 10 with handlers.
Qed.

Lemma dirty_speak (e : Render) (t : Js) (w : World) :
  dirty (speak e t w) = dirty w.
Proof.
  unfold speak, seq, skip, stopListening.
  destruct (isInterviewActive (snap e)); simpl; [| reflexivity].
  now destruct (recognition e).
Qed.

Lemma dirty_startInterview (e : Render) (w : World) :
  dirty (startInterview e w) = true.
Proof. unfold startInterview, seq. now rewrite dirty_speak. Qed.

Lemma dirty_stopInterview (e : Render) (w : World) :
  dirty (stopInterview e w) = true.
Proof. reflexivity. Qed.

(** [commit] after a handler of the latest render: the handler called a
    setter, so a new render takes its place. *)
Lemma commit_click (w : World) (h : Handler) :
  consistent w ->
  respects (S (renders w)) h ->
  dirty (h w) = true ->
  consistent (commit (h w)).
Proof.
  intros [Hclean Hsnap Hown Hq] Hh Hdirty.
  destruct (Hh w (queues_ok_S _ _ Hq)) as (Hq' & Hr & Hc & _).
  unfold commit. rewrite Hdirty, Hr, Hc.
  constructor; simpl; try reflexivity.
  destruct Hq' as [Hl Hu Ht Hf]. now constructor.
Qed.

(** [commit] after a callback of an older render, run on a world [w0] that
    differs from [w] in its queues only. *)
Lemma commit_callback (w w0 : World) (h : Handler) :
  consistent w ->
  store w0 = store w -> rendered w0 = rendered w -> renders w0 = renders w ->
  capable w0 = capable w -> dirty w0 = dirty w ->
  queues_ok (renders w) w0 ->
  respects (renders w) h ->
  consistent (commit (h w0)).
Proof.
  intros [Hclean Hsnap Hown Hq] Hs0 Hd0 Hr0 Hc0 Hy0 Hq0 Hh.
  destruct (Hh w0 Hq0) as (Hq' & Hr & Hc & Hd & _ & Hs).
  unfold commit. destruct (dirty (h w0)) eqn:Hdirty.
  - rewrite Hr, Hc, Hr0, Hc0. constructor; simpl; try reflexivity.
    destruct (queues_ok_S _ _ Hq') as [Hl Hu Ht Hf]. now constructor.
  - constructor.
    + exact Hdirty.
    + rewrite Hd, Hd0, (Hs eq_refl), Hs0. exact Hsnap.
    + rewrite Hd, Hd0, Hc, Hc0, Hr, Hr0. exact Hown.
    + rewrite Hr, Hr0. exact Hq'.
Qed.

Lemma step_consistent (ev : Event) (w w' : World) :
  consistent w -> step ev w = Some w' -> consistent w'.
Proof.
  intros Hw Hstep. pose proof (queues w Hw) as [Hl Hu Ht Hf].
  destruct ev as [| | | i | r t | r | i o]; simpl in Hstep.
  - injection Hstep as <-. apply commit_click; [exact Hw | |].
    + apply respects_startInterview, rendered_older, (own_recognizer w Hw).
    + apply dirty_startInterview.
  - injection Hstep as <-. apply commit_click; [exact Hw | |].
    + apply respects_stopInterview.
    + apply dirty_stopInterview.
  - destruct (utterances w) as [| [t e] rest] eqn:Hutt; [discriminate |].
    injection Hstep as <-. inversion Hu as [| ? ? [Ho Ha] Hrest]; subst.
    apply (commit_callback w); try reflexivity; [exact Hw | |].
    + now constructor.
    + now apply respects_utterance_onend.
  - destruct (nth_error (timers w) i) as [e |] eqn:Hnth; [| discriminate].
    injection Hstep as <-.
    destruct (Forall_nth_error _ _ _ _ Ht Hnth) as [Ho Ha].
    apply (commit_callback w); try reflexivity; [exact Hw | |].
    + constructor; simpl; auto. now apply Forall_drop_nth.
    + now apply respects_startListening.
  - destruct (find (same_recognizer r) (listening w)) as [e |] eqn:Hfind;
      [| discriminate].
    injection Hstep as <-. apply find_same_recognizer in Hfind.
    destruct Hfind as [Hin _].
    rewrite Forall_forall in Hl. destruct (Hl e Hin) as [Ho _].
    apply (commit_callback w); try reflexivity; [exact Hw | apply Hw |].
    now apply respects_recognition_onresult.
  - destruct (is_listening r w); [| discriminate]. injection Hstep as <-.
    apply (commit_callback w); try reflexivity; [exact Hw | |].
    + constructor; simpl; auto. now apply Forall_keep.
    + apply respects_skip.
  - destruct (nth_error (inflight w) i) as [[e uc] |] eqn:Hnth; [| discriminate].
    injection Hstep as <-.
    destruct (Forall_nth_error _ _ _ _ Hf Hnth) as [Ho _].
    apply (commit_callback w); try reflexivity; [exact Hw | |].
    + constructor; simpl; auto. now apply Forall_drop_nth.
    + now apply respects_sendToGemini_resume.
Qed.

Lemma initial_consistent (cap : bool) : consistent (initial_world cap).
Proof. repeat constructor. Qed.

Theorem reachable_consistent (cap : bool) (w : World) :
  reachable cap w -> consistent w.
Proof.
  induction 1 as [| ev w w' _ IH Hstep].
  - apply initial_consistent.
  - exact (step_consistent ev w w' IH Hstep).
Qed.

Lemma run_reachable (cap : bool) (evs : list Event) (w w' : World) :
  reachable cap w -> run evs w = Some w' -> reachable cap w'.
Proof.
  revert w. induction evs as [| ev evs IH]; intros w Hw Hrun; simpl in Hrun.
  - now injection Hrun as <-.
  - destruct (step ev w) as [w1 |] eqn:Hstep; [| discriminate].
    apply (IH w1); [| exact Hrun]. exact (reach_step cap ev w w1 Hw Hstep).
Qed.

(** ** What the invariant says about the guards

    Every callback the platform holds belongs to a render that saw the
    session active (and idle, for recognizers and requests), whatever the
    store says by the time the callback runs. *)

Lemma filter_all {A : Type} (f : A -> bool) (l : list A) :
  (forall x, In x l -> f x = true) -> filter f l = l.
Proof.
  induction l as [| x l IH]; intros H; [reflexivity |].
  simpl. rewrite (H x (or_introl eq_refl)). f_equal.
  apply IH. intros y Hy. apply H. now right.
Qed.

(** The recognizer of the latest render is never one that is listening. *)
Lemma latest_recognizer_is_idle (cap : bool) (w : World) (r : nat) :
  reachable cap w -> recognition (rendered w) = Some r ->
  is_listening r w = false.
Proof.
  intros Hreach Hr. apply reachable_consistent in Hreach.
  destruct Hreach as [_ _ Hown [Hl _ _ _]].
  rewrite Hown in Hr. unfold new_recognizer in Hr.
  destruct (capable w); [injection Hr as <- | discriminate].
  unfold is_listening. apply not_true_is_false. intros Hex.
  apply existsb_exists in Hex. destruct Hex as (e & Hin & Hsame).
  rewrite Forall_forall in Hl. destruct (Hl e Hin) as [Hold _].
  unfold same_recognizer in Hsame.
  destruct (recognition e) as [r' |] eqn:Hrec; [| discriminate].
  apply Nat.eqb_eq in Hsame. subst r'. specialize (Hold _ Hrec). lia.
Qed.

Lemma recognition_stop_idle (r : nat) (w : World) :
  is_listening r w = false -> listening (recognition_stop r w) = listening w.
Proof.
  intros H. simpl. apply filter_all. intros e Hin.
  destruct (same_recognizer r e) eqn:Hsame; [| reflexivity].
  unfold is_listening in H.
  assert (existsb (same_recognizer r) (listening w) = true)
    by (apply existsb_exists; now exists e).
  congruence.
Qed.

(** X19.  The "Stop" button, in every reachable world: the store is put in
    its final state and the speech queue is emptied, but every recognizer that
    was listening still is, and every pending timer and request stays. *)
Lemma stop_button (cap : bool) (w w' : World) :
  reachable cap w -> step ClickStop w = Some w' ->
  isInterviewActive (store w') = false
  /\ questionCount (store w') = 5
  /\ aiText (store w') = JStr endedText
  /\ utterances w' = []
  /\ listening w' = listening w
  /\ timers w' = timers w
  /\ inflight w' = inflight w.
Proof.
  intros Hreach Hstep. simpl in Hstep. injection Hstep as <-.
  destruct (commit_queues (stopInterview (rendered w) w))
    as (-> & -> & -> & -> & _).
  rewrite store_commit. unfold stopInterview, seq, stopListening, skip.
  destruct (recognition (rendered w)) as [r |] eqn:Hrec; simpl;
    repeat split.
  change (listening (recognition_stop r
            (setQuestionCount (fun _ => 5) (setIsInterviewActive false w)))
          = listening w).
  rewrite recognition_stop_idle; [reflexivity |].
  exact (latest_recognizer_is_idle cap w r Hreach Hrec).
Qed.

(** X21.  A final result always becomes a request: line 62 never returns
    early in a reachable world, whatever the busy flag of the store says.  The
    recognizer is stopped and one request leaves, whose body is the system
    instruction, the conversation of the capturing render and the answer. *)
Lemma capture_always_requests (cap : bool) (w : World) (r : nat) (e : Render)
    (t : string) :
  reachable cap w ->
  find (same_recognizer r) (listening w) = Some e ->
  exists w',
    step (Result r t) w = Some w'
    /\ inflight w' =
       inflight w ++ [(e, conversation (snap e) ++ [mkMessage user (JStr t)])]
    /\ log w' =
       log w ++ [RecognitionStop r;
                 Fetch (contents (conversation (snap e)
                                    ++ [mkMessage user (JStr t)]))].
Proof.
  intros Hreach Hfind. simpl. rewrite Hfind. eexists. split; [reflexivity |].
  destruct (find_same_recognizer _ _ _ Hfind) as [Hin Hrec].
  apply reachable_consistent in Hreach. destruct Hreach as [_ _ _ [Hl _ _ _]].
  rewrite Forall_forall in Hl. destruct (Hl e Hin) as (_ & Hact & Hidle).
  destruct (commit_queues (recognition_onresult e t w))
    as (_ & _ & _ & -> & -> & _).
  unfold recognition_onresult, sendToGemini, stopListening, seq.
  rewrite Hact, Hidle, Hrec. simpl. split; [reflexivity |].
  now rewrite <- app_assoc.
Qed.

(** X22.  A parsed reply is always spoken: line 46 never returns early in
    the continuation of a request, whatever the store says.  The utterance
    joins the speech queue with the closure of the render that sent the
    request. *)
Lemma reply_is_always_spoken (cap : bool) (w w' : World) (i : nat) (e : Render)
    (uc : list Message) (data : Js) :
  reachable cap w ->
  nth_error (inflight w) i = Some (e, uc) ->
  step (Reply i (Parsed data)) w = Some w' ->
  utterances w' = utterances w ++ [(aiReply data, e)].
Proof.
  intros Hreach Hnth Hstep. simpl in Hstep. rewrite Hnth in Hstep.
  injection Hstep as <-.
  apply reachable_consistent in Hreach. destruct Hreach as [_ _ _ [_ _ _ Hf]].
  destruct (Forall_nth_error _ _ _ _ Hf Hnth) as (_ & Hact & _).
  simpl in Hact.
  match goal with
  | |- utterances (commit ?w0) = _ =>
      rewrite (proj1 (proj2 (commit_queues w0)))
  end.
  rewrite resume_parsed_speech, Hact. reflexivity.
Qed.

(** X20.  A click on "Start Interview" while the store says inactive, in
    every reachable world (the first click, and every first click after
    "Stop"): the store is set up, and nothing is spoken. *)
Lemma start_from_inactive_is_silent (cap : bool) (w w' : World) :
  reachable cap w ->
  isInterviewActive (store w) = false ->
  step ClickStart w = Some w' ->
  store w' = mkState [] (userText (store w)) (JStr firstQuestion) 1
                     (isProcessing (store w)) true
  /\ utterances w' = utterances w
  /\ log w' = log w.
Proof.
  intros Hreach Hoff Hstep. simpl in Hstep. injection Hstep as <-.
  apply reachable_consistent in Hreach. destruct Hreach as [_ Hsnap _ _].
  destruct (commit_queues (startInterview (rendered w) w))
    as (_ & -> & _ & _ & -> & _).
  rewrite store_commit. unfold startInterview, seq, speak.
  rewrite Hsnap, Hoff. repeat split.
Qed.

(** ** The two guarded adapters, seen from one render *)

Lemma speak_inactive (e : Render) (t : Js) (w : World) :
  isInterviewActive (snap e) = false -> speak e t w = w.
Proof. intros H. unfold speak. now rewrite H. Qed.

Lemma speak_active (e : Render) (t : Js) (w : World) :
  isInterviewActive (snap e) = true ->
  speak e t w = synthesis_speak e t (stopListening e w).
Proof. intros H. unfold speak. now rewrite H. Qed.

(** X23.  [speak] of a render that saw the session active, with
    recognizer [r]: first [r] is stopped, then the utterance is handed to the
    synthesizer, and [r] is not listening afterwards. *)
Lemma speak_active_log (e : Render) (r : nat) (t : Js) (w : World) :
  isInterviewActive (snap e) = true -> recognition e = Some r ->
  log (speak e t w) = log w ++ [RecognitionStop r; SynthesisSpeak t]
  /\ is_listening r (speak e t w) = false.
Proof.
  intros Hact Hrec. rewrite (speak_active e t w Hact).
  unfold stopListening. rewrite Hrec. simpl. split.
  - now rewrite <- app_assoc.
  - unfold is_listening. simpl. apply not_true_is_false. intros Hex.
    apply existsb_exists in Hex. destruct Hex as (x & Hin & Hsame).
    apply filter_In in Hin. destruct Hin as [_ Hneg].
    rewrite Hsame in Hneg. discriminate.
Qed.

Lemma startListening_refuses (e : Render) (w : World) :
  isProcessing (snap e) = true \/ isInterviewActive (snap e) = false ->
  startListening e w = w.
Proof.
  intros H. unfold startListening, skip. destruct (recognition e); [| reflexivity].
  destruct H as [-> | ->]; [reflexivity |].
  now destruct (isProcessing (snap e)).
Qed.

Lemma startListening_starts (e : Render) (r : nat) (w : World) :
  recognition e = Some r ->
  isProcessing (snap e) = false -> isInterviewActive (snap e) = true ->
  is_listening r (startListening e w) = true.
Proof.
  intros Hrec Hidle Hact. unfold startListening. rewrite Hrec, Hidle, Hact.
  simpl. unfold recognition_start.
  destruct (is_listening r w) eqn:Hl; [exact Hl |].
  unfold is_listening. simpl. rewrite existsb_app. simpl.
  unfold same_recognizer at 2. rewrite Hrec, Nat.eqb_refl.
  now rewrite orb_true_r.
Qed.

(** ** How the counter moves

    Only three things write the counter: the two buttons, with the constants
    1 and 5, and a parsed reply, which adds one to whatever the store holds.
    No step reads the store's counter to decide anything. *)

Lemma counter_recognition_onresult (e : Render) (t : string) (w : World) :
  questionCount (store (recognition_onresult e t w)) = questionCount (store w).
Proof.
  unfold recognition_onresult, sendToGemini, seq, skip, stopListening.
  destruct (isProcessing (snap e) || negb (isInterviewActive (snap e)));
    destruct (recognition e); reflexivity.
Qed.

Lemma counter_startListening (e : Render) (w : World) :
  store (startListening e w) = store w.
Proof.
  unfold startListening, skip, recognition_start.
  destruct (recognition e) as [r |]; [| reflexivity].
  destruct (negb (isProcessing (snap e)) && isInterviewActive (snap e));
    [| reflexivity].
  now destruct (is_listening r w).
Qed.

Lemma counter_utterance_onend (e : Render) (w : World) :
  store (utterance_onend e w) = store w.
Proof.
  unfold utterance_onend, skip.
  now destruct (isInterviewActive (snap e) && (questionCount (snap e) <? 5)).
Qed.

(** X17.  What one event does to the counter: "Start" sets it to 1, "Stop"
    to 5, a parsed reply adds one to what the store holds, and nothing else
    (a thrown reply, a capture, a timer, the end of an utterance or of a
    recognizer) changes it.  No event is refused because of the counter. *)
Lemma counter_after_step (ev : Event) (w w' : World) :
  step ev w = Some w' ->
  questionCount (store w') =
  match ev with
  | ClickStart => 1
  | ClickStop => 5
  | Reply _ (Parsed _) => questionCount (store w) + 1
  | _ => questionCount (store w)
  end.
Proof.
  intros Hstep. destruct ev as [| | | i | r t | r | i o]; cbn [step] in Hstep.
  - injection Hstep as <-. rewrite store_commit.
    unfold startInterview, seq. now rewrite store_speak.
  - injection Hstep as <-. rewrite store_commit.
    unfold stopInterview, seq. simpl. now rewrite store_stopListening.
  - destruct (utterances w) as [| [t e] rest]; [discriminate |].
    injection Hstep as <-. now rewrite store_commit, counter_utterance_onend.
  - destruct (nth_error (timers w) i) as [e |]; [| discriminate].
    injection Hstep as <-. now rewrite store_commit, counter_startListening.
  - destruct (find (same_recognizer r) (listening w)) as [e |]; [| discriminate].
    injection Hstep as <-.
    now rewrite store_commit, counter_recognition_onresult.
  - destruct (is_listening r w); [| discriminate].
    injection Hstep as <-. now rewrite store_commit.
  - destruct (nth_error (inflight w) i) as [[e uc] |]; [| discriminate].
    injection Hstep as <-. rewrite store_commit. destruct o as [| | data].
    + reflexivity.
    + reflexivity.
    + now destruct (resume_parsed e uc data
                      (with_inflight (drop_nth i (inflight w)) w))
        as (_ & _ & -> & _).
Qed.

(** ** The counter has no upper bound *)

Lemma run_app (evs1 evs2 : list Event) (w : World) :
  run (evs1 ++ evs2) w =
  match run evs1 w with
  | Some w1 => run evs2 w1
  | None => None
  end.
Proof.
  revert w. induction evs1 as [| ev evs1 IH]; intros w; [reflexivity |].
  simpl. destruct (step ev w); [apply IH | reflexivity].
Qed.

Lemma opening_speaks :
  exists w, session opening = Some w
            /\ speaking_for_first_render w /\ questionCount (store w) = 1.
Proof.
  eexists. split; [vm_compute; reflexivity |].
  split; [| reflexivity].
  split; [now eexists | repeat split].
Qed.

(** One more turn in [first_render]: its [onend] compares the captured
    counter, which is 1, so the page listens again whatever the store
    counts. *)
Lemma turn_for_first_render (w : World) (answer : string) :
  speaking_for_first_render w ->
  exists w',
    run (turn 1 answer (question "And then?")) w = Some w'
    /\ speaking_for_first_render w'
    /\ questionCount (store w') = questionCount (store w) + 1.
Proof.
  intros ([t Hu] & Ht & Hl & Hf & Hd & Ha).
  destruct w as [st rd n cap d ls us ts fs lg].
  cbn [utterances timers listening inflight dirty store] in *. subst.
  eexists. split; [vm_compute; reflexivity |].
  split; [| reflexivity].
  split; [now eexists | repeat split; assumption].
Qed.

(** X18.  For every [n] the session made of the opening and [n] answered
    questions runs to its end with the page still speaking on behalf of
    [first_render] and the counter at [1 + n]: the number of questions has
    no upper bound. *)
Theorem counter_has_no_bound (n : nat) :
  exists w,
    session (opening ++ answers n) = Some w
    /\ speaking_for_first_render w
    /\ questionCount (store w) = 1 + Z.of_nat n.
Proof.
  induction n as [| n (w & Hrun & Hsp & Hq)].
  - destruct opening_speaks as (w & Hrun & Hsp & Hq).
    exists w. split; [exact Hrun | split; [exact Hsp | exact Hq]].
  - destruct (turn_for_first_render w "Well." Hsp) as (w' & Hturn & Hsp' & Hq').
    exists w'. split; [| split; [exact Hsp' | lia]].
    unfold session, answers in *.
    replace (S n) with (n + 1)%nat by lia.
    rewrite repeat_app, List.concat_app, app_assoc, run_app, Hrun.
    exact Hturn.
Qed.

(** ** The session as the page runs it *)

(** C1, at the session [five_answers].  After the fifth answered question the
    store counts 6 while the session is still active, the sixth question is
    in the speech queue, and when it ends the page listens for a sixth
    answer: the limit of line 52 is compared with the counter captured by
    [first_render], which stays 1. *)
Theorem C1_counter_passes_five_while_active :
  exists w w',
    session five_answers = Some w
    /\ isInterviewActive (store w) = true
    /\ questionCount (store w) = 6
    /\ utterances w = [(JStr "Question 6?", first_render)]
    /\ run [UtteranceEnd; TimerFires 0] w = Some w'
    /\ is_listening 1 w' = true
    /\ questionCount (store w') = 6.
Proof.
  eexists. eexists. split; [vm_compute; reflexivity |].
  repeat split.
Qed.

(** C3, at the session [awaiting_answer].  The click on "Stop" puts the store
    in its final state and empties the speech queue, but the recognizer that
    is listening belongs to an older render than the handler and keeps
    listening; the next answer is sent to the model and its reply is recorded,
    counted and spoken. *)
Theorem C3_stop_leaves_the_session_running :
  exists w0 w1 w2,
    session awaiting_answer = Some w0
    /\ is_listening 1 w0 = true
    /\ step ClickStop w0 = Some w1
    /\ isInterviewActive (store w1) = false
    /\ questionCount (store w1) = 5
    /\ aiText (store w1) = JStr endedText
    /\ utterances w1 = []
    /\ log w1 = log w0 ++ [RecognitionStop 2; SynthesisCancel]
    /\ is_listening 1 w1 = true
    /\ run [Result 1 "Hello?"; Reply 0 (question "Question 2?")] w1 = Some w2
    /\ log w2 =
       log w1 ++ [RecognitionStop 1;
                  Fetch (contents [mkMessage user (JStr "Hello?")]);
                  RecognitionStop 1;
                  SynthesisSpeak (JStr "Question 2?")]
    /\ utterances w2 = [(JStr "Question 2?", first_render)]
    /\ questionCount (store w2) = 6
    /\ aiText (store w2) = JStr "Question 2?".
Proof.
  do 3 eexists. split; [vm_compute; reflexivity |].
  split; [reflexivity |]. split; [vm_compute; reflexivity |].
  do 6 (split; [reflexivity |]).
  split; [vm_compute; reflexivity |]. repeat split.
Qed.

(** C4, at the first click on "Start Interview".  The store is set up as the
    claim says (transcript empty, counter 1, session active, opening
    question displayed), but [speak] runs in the render that saw the session
    inactive and returns at line 46: no call reaches the synthesizer. *)
Theorem C4_first_start_speaks_nothing :
  exists w,
    step ClickStart (initial_world true) = Some w
    /\ store w = mkState [] "" (JStr firstQuestion) 1 false true
    /\ utterances w = []
    /\ log w = [].
Proof. eexists. split; [vm_compute; reflexivity |]. repeat split. Qed.

(** C5, at the second answer of a session.  The session is active and the
    transcript holds the first answer and the second question.  The second
    answer is captured and its request is answered by the payload whose text
    is "Next question?".  The counter advances by exactly one, but no turn
    is appended to the transcript: line 101 stores the conversation captured
    by [first_render], which is empty, with the new answer and the new
    reply, and the first exchange is gone. *)
Theorem C5_second_reply_erases_first_exchange :
  exists w0 w1,
    session awaiting_second_answer = Some w0
    /\ isInterviewActive (store w0) = true
    /\ conversation (store w0) =
       [mkMessage user (JStr "I am Ada.");
        mkMessage model (JStr "Question 2?")]
    /\ run [Result 1 "I write programs.";
            Reply 0 (question "Next question?")] w0 = Some w1
    /\ conversation (store w1) =
       [mkMessage user (JStr "I write programs.");
        mkMessage model (JStr "Next question?")]
    /\ questionCount (store w1) = questionCount (store w0) + 1.
Proof.
  do 2 eexists. split; [vm_compute; reflexivity |].
  do 2 (split; [reflexivity |]). split; [vm_compute; reflexivity |].
  split; reflexivity.
Qed.

(** C6, at the session [eager_start].  A request is outstanding and the busy
    flag of the store is set; the recognizer of a render that saw the flag
    clear delivers an answer, and a second request leaves.  The first reply
    then clears the flag while the second request is still outstanding. *)
Theorem C6_second_request_while_busy :
  exists w0 w1 w2,
    session eager_start = Some w0
    /\ isProcessing (store w0) = true
    /\ List.length (inflight w0) = 1%nat
    /\ step (Result 2 "Anyone?") w0 = Some w1
    /\ isProcessing (store w1) = true
    /\ List.length (inflight w1) = 2%nat
    /\ step (Reply 0 (question "Question 2?")) w1 = Some w2
    /\ isProcessing (store w2) = false
    /\ List.length (inflight w2) = 1%nat.
Proof.
  do 3 eexists. split; [vm_compute; reflexivity |].
  do 2 (split; [reflexivity |]). split; [vm_compute; reflexivity |].
  do 2 (split; [reflexivity |]). split; [vm_compute; reflexivity |].
  repeat split.
Qed.

(** C7, at the second answer of a session.  The transcript holds the first
    answer and the second question, yet the body of the second request is the
    system instruction followed by the second answer alone: line 66 spreads
    the conversation captured by [first_render], which is empty. *)
Theorem C7_second_request_omits_first_turn :
  exists w0 w1,
    session awaiting_second_answer = Some w0
    /\ conversation (store w0) =
       [mkMessage user (JStr "I am Ada.");
        mkMessage model (JStr "Question 2?")]
    /\ step (Result 1 "I write programs.") w0 = Some w1
    /\ log w1 =
       log w0 ++ [RecognitionStop 1;
                  Fetch [mkContent user [mkPart (JStr systemPrompt)];
                         mkContent user [mkPart (JStr "I write programs.")]]].
Proof.
  do 2 eexists. split; [vm_compute; reflexivity |].
  split; [reflexivity |]. split; [vm_compute; reflexivity |]. reflexivity.
Qed.

(** C8, at the session [pausing] followed by a click on "Stop".  The timer of
    line 53 is still pending; when it fires, [startListening] reads the flags
    captured by [first_render] and starts the recognizer although the store
    says the session is inactive. *)
Theorem C8_listening_starts_after_stop :
  exists w0 w1,
    run (pausing ++ [ClickStop]) (initial_world true) = Some w0
    /\ isInterviewActive (store w0) = false
    /\ is_listening 1 w0 = false
    /\ step (TimerFires 0) w0 = Some w1
    /\ isInterviewActive (store w1) = false
    /\ is_listening 1 w1 = true
    /\ log w1 = log w0 ++ [RecognitionStart 1].
Proof.
  do 2 eexists. split; [vm_compute; reflexivity |].
  do 2 (split; [reflexivity |]). split; [vm_compute; reflexivity |].
  repeat split.
Qed.

(** C9, at a reply that arrives after "Stop".  The session is inactive in
    the store when the reply settles; the continuation of [sendToGemini]
    calls [speak] of the render that sent the request, which saw the session
    active, and the reply is spoken. *)
Theorem C9_reply_after_stop_is_spoken :
  exists w0 w1,
    run (first_answer ++ [ClickStop]) (initial_world true) = Some w0
    /\ isInterviewActive (store w0) = false
    /\ utterances w0 = []
    /\ step (Reply 0 (question "Next question?")) w0 = Some w1
    /\ isInterviewActive (store w1) = false
    /\ utterances w1 = [(JStr "Next question?", first_render)]
    /\ log w1 = log w0 ++ [RecognitionStop 1;
                           SynthesisSpeak (JStr "Next question?")].
Proof.
  do 2 eexists. split; [vm_compute; reflexivity |].
  do 2 (split; [reflexivity |]). split; [vm_compute; reflexivity |].
  repeat split.
Qed.

(** * Further properties *)

(** ** The reply path, in general *)

Lemma truthy_aiReply (data : Js) : truthy (aiReply data) = true.
Proof.
  unfold aiReply. destruct (truthy (reply_path data)) eqn:H; [exact H |].
  reflexivity.
Qed.

(** X1.  Whatever the body of the response, the reply that is recorded,
    displayed and spoken is truthy: it is never [undefined], [null], [false],
    zero or the empty string. *)
Theorem aiReply_never_falsy (data : Js) : truthy (aiReply data) = true.
Proof.
  unfold aiReply. destruct (truthy (reply_path data)) eqn:H; [exact H |].
  reflexivity.
Qed.

Lemma field_is_array (k : string) (v : Js) (items : list Js) :
  field k v = JArr items -> exists fs, v = JObj fs.
Proof. destruct v; try discriminate. intros _. now eexists. Qed.

Lemma chain_object (fs : list (string * Js)) (access : Js -> Js) :
  JObj fs ?> access = access (JObj fs).
Proof. reflexivity. Qed.

Lemma chain_array (items : list Js) (access : Js -> Js) :
  JArr items ?> access = access (JArr items).
Proof. reflexivity. Qed.

(** X2.  A response that has a first candidate with a content whose parts
    begin with a part: the reply path yields the [text] of that part,
    whatever else the response holds (further candidates, further parts,
    other keys), and the reply is that text when it is truthy. *)
Theorem reply_path_reads_first_part (data c content p : Js)
    (cs ps : list Js) :
  field "candidates" data = JArr (c :: cs) ->
  field "content" c = content ->
  field "parts" content = JArr (p :: ps) ->
  reply_path data = field "text" p
  /\ (truthy (field "text" p) = true -> aiReply data = field "text" p).
Proof.
  intros Hcand Hcontent Hparts.
  assert (Hpath : reply_path data = field "text" p).
  { destruct (field_is_array _ _ _ Hcand) as [fs ->].
    destruct (field_is_array _ _ _ Hparts) as [fs' Hc'].
    assert (exists fc, c = JObj fc) as [fc ->].
    { destruct c; try (simpl in Hcontent; congruence). now eexists. }
    unfold reply_path. rewrite chain_object, Hcand, chain_array.
    change (index0 (JArr (JObj fc :: cs))) with (JObj fc).
    rewrite chain_object, Hcontent, Hc', chain_object.
    rewrite <- Hc', Hparts, chain_array.
    change (index0 (JArr (p :: ps))) with p.
    destruct p; reflexivity. }
  split; [exact Hpath |].
  intros Ht. unfold aiReply. now rewrite Hpath, Ht.
Qed.

Lemma reply_path_reads_first_part_witness :
  aiReply sample_response = JStr "Why?".
Proof.
  edestruct (reply_path_reads_first_part sample_response) as [_ H];
    [reflexivity | reflexivity | reflexivity |].
  exact (H eq_refl).
Defined.

Lemma falsy_field (k : string) (v : Js) :
  truthy v = false -> v ?> field k = JUndefined.
Proof. destruct v; try reflexivity; discriminate. Qed.

Lemma falsy_index0 (v : Js) : truthy v = false -> v ?> index0 = JUndefined.
Proof.
  destruct v as [| | b | q | s | |]; try reflexivity; try discriminate.
  destruct s; [reflexivity | discriminate].
Qed.

(** X3.  When the response, or any value met on the way to the text (the
    candidates, the first candidate, its content, the parts, the first part),
    is falsy, the reply is the fallback. *)
Theorem reply_is_fallback_when_path_breaks (data : Js) :
  let candidates := data ?> field "candidates" in
  let candidate := candidates ?> index0 in
  let content := candidate ?> field "content" in
  let parts := content ?> field "parts" in
  let part := parts ?> index0 in
  truthy data = false \/ truthy candidates = false
  \/ truthy candidate = false \/ truthy content = false
  \/ truthy parts = false \/ truthy part = false ->
  aiReply data = JStr fallback.
Proof.
  intros candidates candidate content parts part H.
  apply aiReply_falsy.
  assert (Hpart : truthy part = false).
  { assert (H5 : truthy parts = false -> truthy part = false).
    { intros E. unfold part. now rewrite (falsy_index0 _ E). }
    assert (H4 : truthy content = false -> truthy parts = false).
    { intros E. unfold parts. now rewrite (falsy_field _ _ E). }
    assert (H3 : truthy candidate = false -> truthy content = false).
    { intros E. unfold content. now rewrite (falsy_field _ _ E). }
    assert (H2 : truthy candidates = false -> truthy candidate = false).
    { intros E. unfold candidate. now rewrite (falsy_index0 _ E). }
    assert (H1 : truthy data = false -> truthy candidates = false).
    { intros E. unfold candidates. now rewrite (falsy_field _ _ E). }
    intuition. }
  change (reply_path data) with (part ?> field "text").
  now rewrite (falsy_field _ _ Hpart).
Qed.

Lemma reply_is_fallback_when_path_breaks_witness :
  aiReply (JObj [("candidates", JArr [])]) = JStr fallback.
Proof.
  apply reply_is_fallback_when_path_breaks. right. right. left. reflexivity.
Defined.

(** ** Transcript, requests and flags *)

Lemma paired_app (b : list Message) :
  forall a, paired a = true -> paired (a ++ b) = paired b.
Proof.
  fix IH 1. intros [| [r1 t1] [| [r2 t2] rest]] H.
  - reflexivity.
  - simpl in H. destruct r1, t1; discriminate.
  - simpl in H |- *. destruct r1; try discriminate.
    destruct t1; try discriminate. destruct r2; try discriminate.
    apply andb_true_iff in H. destruct H as [Hv Hr]. rewrite Hv. simpl.
    apply IH. exact Hr.
Qed.

Lemma paired_exchange (c : list Message) (t : string) (v : Js) :
  paired c = true -> truthy v = true ->
  paired ((c ++ [mkMessage user (JStr t)]) ++ [mkMessage model v]) = true.
Proof.
  intros Hc Hv. rewrite <- app_assoc. rewrite (paired_app _ c Hc).
  simpl. now rewrite Hv.
Qed.

Lemma sound_commit (w : World) : sound w -> sound (commit w).
Proof.
  intros H. unfold commit. destruct (dirty w); [| exact H].
  destruct H. now constructor.
Qed.

Arguments contents : simpl never.
Arguments is_listening : simpl never.
Arguments aiReply : simpl never.

Ltac open_handlers :=
  unfold startInterview, stopInterview, recognition_onresult, sendToGemini,
    sendToGemini_resume, speak, utterance_onend, startListening,
    stopListening, recognition_onend, recognition_start, seq, skip.

Ltac sound_element :=
  cbn;
  match goal with
  | |- True => exact I
  | |- store_ok _ => assumption
  | |- request_ok _ => split; [assumption | eexists; reflexivity]
  | |- exists c t, _ /\ _ = contents (_ ++ [mkMessage user (JStr _)]) =>
      eexists; eexists; split; [| reflexivity];
      match goal with H : store_ok _ |- _ => exact (proj1 H) end
  | |- _ = _ => first [reflexivity | assumption | apply truthy_aiReply]
  end.

Ltac sound_list :=
  match goal with
  | |- Forall _ (filter _ _) => apply Forall_keep; sound_list
  | |- Forall _ (drop_nth _ _) => apply Forall_drop_nth; sound_list
  | |- Forall _ (_ ++ [_]) =>
      apply Forall_app; split;
      [sound_list | constructor; [sound_element | constructor]]
  | |- Forall _ [] => constructor
  | |- Forall _ _ => assumption
  end.

Ltac sound_goal :=
  cbn;
  match goal with
  | |- store_ok _ =>
      unfold store_ok in *; cbn; intuition (auto; try lia)
  | |- Forall _ _ => sound_list
  | |- _ -> _ <> [] =>
      first [ assumption
            | intros _ E; apply app_eq_nil in E; destruct E; discriminate
            | discriminate ]
  end.

Ltac split_ifs :=
  repeat (match goal with
          | |- context [if ?b then _ else _] => destruct b eqn:?
          | |- context [match ?x with Some _ => _ | None => _ end] =>
              destruct x eqn:?
          end; cbv beta iota).

Ltac sound_cases := cbv beta; split_ifs; cbn; split_ifs; cbn.

Lemma sound_startInterview (e : Render) (w : World) :
  store_ok (snap e) -> sound w -> sound (startInterview e w).
Proof.
  intros He [Hs Hl Hu Ht Hf Hb Hg]. open_handlers. sound_cases.
  all: constructor; try solve [sound_goal].
Qed.

Lemma sound_stopInterview (e : Render) (w : World) :
  sound w -> sound (stopInterview e w).
Proof.
  intros [Hs Hl Hu Ht Hf Hb Hg]. open_handlers. sound_cases.
  all: constructor; try solve [sound_goal].
Qed.

Lemma sound_utterance_onend (e : Render) (w : World) :
  store_ok (snap e) -> sound w -> sound (utterance_onend e w).
Proof.
  intros He [Hs Hl Hu Ht Hf Hb Hg]. open_handlers. sound_cases.
  all: constructor; try solve [sound_goal].
Qed.

Lemma sound_startListening (e : Render) (w : World) :
  store_ok (snap e) -> sound w -> sound (startListening e w).
Proof.
  intros He [Hs Hl Hu Ht Hf Hb Hg]. open_handlers. sound_cases.
  all: constructor; try solve [sound_goal].
Qed.

Lemma sound_recognition_onresult (e : Render) (t : string) (w : World) :
  store_ok (snap e) -> sound w -> sound (recognition_onresult e t w).
Proof.
  intros He [Hs Hl Hu Ht Hf Hb Hg]. open_handlers. sound_cases.
  all: constructor; try solve [sound_goal].
Qed.

(** The continuation of a request clears the busy flag, so it needs nothing
    of the flag. *)
Lemma sound_sendToGemini_resume (e : Render) (uc : list Message)
    (o : Outcome) (w : World) :
  request_ok (e, uc) ->
  store_ok (store w) ->
  Forall (fun e => store_ok (snap e)) (listening w) ->
  Forall (fun u => store_ok (snap (snd u))) (utterances w) ->
  Forall (fun e => store_ok (snap e)) (timers w) ->
  Forall request_ok (inflight w) ->
  Forall effect_ok (log w) ->
  sound (sendToGemini_resume e uc o w).
Proof.
  intros [He [t Huc]] Hs Hl Hu Ht Hf Hg. simpl in He, Huc. subst uc.
  open_handlers. destruct o as [| | data]; sound_cases.
  all: constructor; try solve [sound_goal].
  all: cbn; destruct He as (Hp & _), Hs as (_ & _ & Hq);
    (split; [| split]);
    [ apply paired_exchange; [exact Hp | apply truthy_aiReply]
    | right; apply truthy_aiReply
    | cbn; lia ].
Qed.

Lemma step_sound (ev : Event) (w w' : World) :
  consistent w -> sound w -> step ev w = Some w' -> sound w'.
Proof.
  intros Hc Hw Hstep. pose proof Hw as [Hs Hl Hu Ht Hf Hb Hg].
  destruct ev as [| | | i | r t | r | i o]; cbn [step] in Hstep.
  - injection Hstep as <-. apply sound_commit, sound_startInterview; [| exact Hw].
    now rewrite (snap_is_store w Hc).
  - injection Hstep as <-. now apply sound_commit, sound_stopInterview.
  - destruct (utterances w) as [| [t e] rest] eqn:Hutt; [discriminate |].
    injection Hstep as <-. inversion Hu as [| ? ? He Hrest]; subst.
    apply sound_commit, sound_utterance_onend; [exact He |].
    now constructor.
  - destruct (nth_error (timers w) i) as [e |] eqn:Hnth; [| discriminate].
    injection Hstep as <-.
    apply sound_commit, sound_startListening.
    + exact (Forall_nth_error _ _ _ _ Ht Hnth).
    + constructor; cbn; auto. now apply Forall_drop_nth.
  - destruct (find (same_recognizer r) (listening w)) as [e |] eqn:Hfind;
      [| discriminate].
    injection Hstep as <-. apply find_same_recognizer in Hfind.
    destruct Hfind as [Hin _].
    apply sound_commit, sound_recognition_onresult; [| exact Hw].
    rewrite Forall_forall in Hl. now apply Hl.
  - destruct (is_listening r w); [| discriminate]. injection Hstep as <-.
    apply sound_commit. constructor; cbn; auto. now apply Forall_keep.
  - destruct (nth_error (inflight w) i) as [[e uc] |] eqn:Hnth; [| discriminate].
    injection Hstep as <-.
    apply sound_commit, sound_sendToGemini_resume; cbn; auto.
    + exact (Forall_nth_error _ _ _ _ Hf Hnth).
    + now apply Forall_drop_nth.
Qed.

Lemma initial_sound (cap : bool) : sound (initial_world cap).
Proof.
  constructor; try (now constructor); try discriminate.
  unfold store_ok, initial_world. simpl. repeat split; [now left | lia].
Qed.

Theorem reachable_sound (cap : bool) (w : World) : reachable cap w -> sound w.
Proof.
  induction 1 as [| ev w w' Hreach IH Hstep].
  - apply initial_sound.
  - exact (step_sound ev w w' (reachable_consistent cap w Hreach) IH Hstep).
Qed.

(** ** A browser without speech recognition *)

Lemma deaf_commit (w : World) : deaf w -> deaf (commit w).
Proof.
  intros H. unfold commit. destruct (dirty w); [| exact H].
  destruct H. now constructor.
Qed.

Ltac deaf_goal :=
  cbn;
  match goal with
  | |- existsb _ _ = false =>
      repeat (rewrite existsb_app; cbn);
      match goal with H : existsb _ _ = false |- _ => now rewrite H end
  | |- Forall _ (_ ++ [_]) =>
      apply Forall_app; split; [assumption | now repeat constructor]
  | |- Forall _ [] => constructor
  | |- _ => first [assumption | reflexivity]
  end.

Lemma deaf_startInterview (e : Render) (w : World) :
  recognition e = None -> deaf w -> deaf (startInterview e w).
Proof.
  intros He [Hc Hl Hf Ht Hi Hu Hm Hg]. open_handlers. rewrite He.
  sound_cases. all: constructor; try solve [deaf_goal].
Qed.

Lemma deaf_stopInterview (e : Render) (w : World) :
  recognition e = None -> deaf w -> deaf (stopInterview e w).
Proof.
  intros He [Hc Hl Hf Ht Hi Hu Hm Hg]. open_handlers. rewrite He.
  sound_cases. all: constructor; try solve [deaf_goal].
Qed.

Lemma deaf_utterance_onend (e : Render) (w : World) :
  recognition e = None -> deaf w -> deaf (utterance_onend e w).
Proof.
  intros He [Hc Hl Hf Ht Hi Hu Hm Hg]. open_handlers.
  sound_cases. all: constructor; try solve [deaf_goal].
Qed.

Lemma deaf_startListening (e : Render) (w : World) :
  recognition e = None -> deaf w -> startListening e w = w.
Proof. intros He _. unfold startListening. now rewrite He. Qed.

Lemma step_deaf (ev : Event) (w w' : World) :
  consistent w -> deaf w -> step ev w = Some w' -> deaf w'.
Proof.
  intros Hc Hw Hstep. pose proof Hw as [Hcap Hl Hf Ht Hi Hu Hm Hg].
  assert (Hown : recognition (rendered w) = None).
  { rewrite (own_recognizer w Hc), Hcap. reflexivity. }
  destruct ev as [| | | i | r t | r | i o]; cbn [step] in Hstep.
  - injection Hstep as <-. now apply deaf_commit, deaf_startInterview.
  - injection Hstep as <-. now apply deaf_commit, deaf_stopInterview.
  - destruct (utterances w) as [| [t e] rest] eqn:Hutt; [discriminate |].
    injection Hstep as <-. inversion Hu as [| ? ? He Hrest]; subst.
    apply deaf_commit, deaf_utterance_onend; [exact He |].
    now constructor.
  - destruct (nth_error (timers w) i) as [e |] eqn:Hnth; [| discriminate].
    injection Hstep as <-.
    assert (Hd : deaf (with_timers (drop_nth i (timers w)) w)).
    { constructor; cbn; auto. now apply Forall_drop_nth. }
    rewrite (deaf_startListening e _ (Forall_nth_error _ _ _ _ Hm Hnth) Hd).
    now apply deaf_commit.
  - rewrite Hl in Hstep. discriminate.
  - unfold is_listening in Hstep. rewrite Hl in Hstep. discriminate.
  - rewrite Hf in Hstep. now destruct i.
Qed.

Lemma initial_deaf : deaf (initial_world false).
Proof. now constructor. Qed.

Lemma reachable_deaf (w : World) : reachable false w -> deaf w.
Proof.
  induction 1 as [| ev w w' Hreach IH Hstep].
  - apply initial_deaf.
  - exact (step_deaf ev w w' (reachable_consistent false w Hreach) IH Hstep).
Qed.

Lemma session_reachable (evs : list Event) (w : World) :
  session evs = Some w -> reachable true w.
Proof. exact (run_reachable true evs _ w (reach_init true)). Qed.

(** ** Invariants of every session *)

(** X4.  In every reachable state the transcript consists of complete
    exchanges: a candidate turn holding the recognized string, followed by
    an interviewer turn holding a truthy reply.  A candidate turn is never
    stored without its reply, and an answer whose request throws is never
    stored at all. *)
Theorem transcript_is_paired (cap : bool) (w : World) :
  reachable cap w -> paired (conversation (store w)) = true.
Proof. intros H. exact (proj1 (store_sound w (reachable_sound cap w H))). Qed.

Lemma transcript_is_paired_witness :
  exists w,
    session (first_answer ++ [Reply 0 BodyRejected]) = Some w
    /\ paired (conversation (store w)) = true.
Proof.
  eexists. split; [vm_compute; reflexivity |].
  apply (transcript_is_paired true).
  apply (session_reachable (first_answer ++ [Reply 0 BodyRejected])).
  vm_compute. reflexivity.
Defined.

(** X5.  Every request that was ever sent carries the system instruction
    first, then a transcript of complete exchanges, then one candidate turn
    holding the recognized string. *)
Theorem requests_are_well_formed (cap : bool) (w : World)
    (cs : list Content) :
  reachable cap w -> In (Fetch cs) (log w) ->
  exists c t,
    paired c = true /\ cs = contents (c ++ [mkMessage user (JStr t)]).
Proof.
  intros H Hin. pose proof (log_sound w (reachable_sound cap w H)) as Hlog.
  rewrite Forall_forall in Hlog. exact (Hlog _ Hin).
Qed.

Lemma requests_are_well_formed_witness :
  exists w c t,
    session first_answer = Some w
    /\ paired c = true
    /\ contents [mkMessage user (JStr "I am Ada.")]
       = contents (c ++ [mkMessage user (JStr t)]).
Proof.
  eexists.
  assert (Hrun : session first_answer = Some ?[w]) by (vm_compute; reflexivity).
  destruct (requests_are_well_formed true _
              (contents [mkMessage user (JStr "I am Ada.")])
              (session_reachable _ _ Hrun)) as (c & t & Hc & Ht).
  { vm_compute. auto 10. }
  exists c, t. split; [exact Hrun | split; assumption].
Defined.

(** X6.  Whenever the busy flag of the store is set, a request is
    outstanding: the [finally] of line 111 clears the flag on every path, so
    the flag cannot stay set after the last request has settled. *)
Theorem busy_has_outstanding_request (cap : bool) (w : World) :
  reachable cap w -> isProcessing (store w) = true -> inflight w <> [].
Proof. intros H. exact (busy_sound w (reachable_sound cap w H)). Qed.

Lemma busy_has_outstanding_request_witness :
  exists w, session first_answer = Some w /\ inflight w <> [].
Proof.
  eexists.
  assert (Hrun : session first_answer = Some ?[w]) by (vm_compute; reflexivity).
  split; [exact Hrun |].
  apply (busy_has_outstanding_request true _ (session_reachable _ _ Hrun)).
  reflexivity.
Defined.



(** X8.  Every text that was ever handed to the speech synthesizer is
    truthy: the page never speaks an empty or missing reply. *)
Theorem spoken_text_is_truthy (cap : bool) (w : World) (v : Js) :
  reachable cap w -> In (SynthesisSpeak v) (log w) -> truthy v = true.
Proof.
  intros H Hin. pose proof (log_sound w (reachable_sound cap w H)) as Hlog.
  rewrite Forall_forall in Hlog. exact (Hlog _ Hin).
Qed.

Lemma spoken_text_is_truthy_witness :
  exists w,
    session (first_answer ++ [Reply 0 (question "")]) = Some w
    /\ In (SynthesisSpeak (JStr fallback)) (log w)
    /\ truthy (JStr fallback) = true.
Proof.
  assert (H : exists w,
             session (first_answer ++ [Reply 0 (question "")]) = Some w
             /\ In (SynthesisSpeak (JStr fallback)) (log w)).
  { eexists. split; [vm_compute; reflexivity | vm_compute; auto 20]. }
  destruct H as (w & Hrun & Hin). exists w.
  split; [exact Hrun |]. split; [exact Hin |].
  exact (spoken_text_is_truthy true _ _ (session_reachable _ _ Hrun) Hin).
Defined.

(** X9.  In a browser that offers neither recognizer constructor, no
    session ever listens, calls a recognizer or sends a request, whatever is
    clicked: the transcript stays empty and the busy flag clear. *)
Theorem deaf_page_never_listens (w : World) :
  reachable false w ->
  listening w = [] /\ inflight w = []
  /\ existsb needs_recognizer (log w) = false
  /\ conversation (store w) = []
  /\ isProcessing (store w) = false.
Proof.
  intros H. destruct (reachable_deaf w H) as [_ Hl Hf Ht Hi _ _ Hg]. auto.
Qed.

Lemma deaf_page_never_listens_witness :
  exists w,
    run [ClickStart; ClickStart; UtteranceEnd; TimerFires 0]
        (initial_world false) = Some w
    /\ listening w = []
    /\ log w = [SynthesisSpeak (JStr firstQuestion); SetTimeout 800].
Proof.
  eexists.
  assert (Hrun : run [ClickStart; ClickStart; UtteranceEnd; TimerFires 0]
                     (initial_world false) = Some ?[w])
    by (vm_compute; reflexivity).
  split; [exact Hrun |].
  split; [| reflexivity].
  exact (proj1 (deaf_page_never_listens _
                  (run_reachable false _ _ _ (reach_init false) Hrun))).
Defined.

(** ** The buttons and the callbacks, step by step *)

Lemma startInterview_when_active (e : Render) (w : World) :
  isInterviewActive (snap e) = true ->
  store (startInterview e w)
  = mkState [] (userText (store w)) (JStr firstQuestion) 1
            (isProcessing (store w)) true
  /\ utterances (startInterview e w) = utterances w ++ [(JStr firstQuestion, e)]
  /\ timers (startInterview e w) = timers w
  /\ inflight (startInterview e w) = inflight w
  /\ listening (startInterview e w)
     = listening (stopListening e w).
Proof.
  intros Hon. unfold startInterview, seq, speak. rewrite Hon.
  cbn [negb]. cbv iota. unfold stopListening, skip.
  destruct (recognition e); cbn; repeat split.
Qed.

(** X10.  A click on "Start Interview" while the store says active: the
    transcript is emptied, the counter set to 1 and the opening question
    displayed and queued for speech behind whatever is being spoken.
    Nothing pending is cancelled: the recognizers that listen, the timers
    and the requests stay, and the answer shown from before stays too. *)
Theorem start_from_active_queues_opening (cap : bool) (w w' : World) :
  reachable cap w ->
  isInterviewActive (store w) = true ->
  step ClickStart w = Some w' ->
  store w' = mkState [] (userText (store w)) (JStr firstQuestion) 1
                     (isProcessing (store w)) true
  /\ utterances w' = utterances w ++ [(JStr firstQuestion, rendered w)]
  /\ listening w' = listening w
  /\ timers w' = timers w
  /\ inflight w' = inflight w.
Proof.
  intros Hreach Hon Hstep. cbn [step] in Hstep. injection Hstep as <-.
  pose proof (reachable_consistent cap w Hreach) as [_ Hsnap _ _].
  rewrite <- Hsnap in Hon.
  destruct (startInterview_when_active (rendered w) w Hon)
    as (Hs & Hu & Ht & Hf & Hl).
  destruct (commit_queues (startInterview (rendered w) w))
    as (-> & -> & -> & -> & _).
  rewrite store_commit, Hs, Hu, Ht, Hf, Hl. repeat split.
  unfold stopListening, skip.
  destruct (recognition (rendered w)) as [r |] eqn:Hrec; [| reflexivity].
  apply recognition_stop_idle.
  exact (latest_recognizer_is_idle cap w r Hreach Hrec).
Qed.

Lemma start_from_active_queues_opening_witness :
  exists w w',
    session [ClickStart] = Some w
    /\ step ClickStart w = Some w'
    /\ utterances w' = [(JStr firstQuestion, rendered w)].
Proof.
  assert (H : exists w, session [ClickStart] = Some w
                        /\ isInterviewActive (store w) = true
                        /\ utterances w = []).
  { eexists. split; [vm_compute; reflexivity | split; reflexivity]. }
  destruct H as (w & Hrun & Hon & Hu).
  exists w. eexists. split; [exact Hrun |]. split; [reflexivity |].
  destruct (start_from_active_queues_opening true w _
              (session_reachable _ _ Hrun) Hon eq_refl) as (_ & -> & _).
  now rewrite Hu.
Defined.

(** X11.  Whether a session started from an active page ever listens is
    decided by the counter before the click, not by the 1 the click stores:
    when the opening question ends, the timer that starts the recognizer is
    set only if that counter was below 5. *)
Theorem restart_listens_iff_counter_was_low (cap : bool) (w w1 : World) :
  reachable cap w ->
  isInterviewActive (store w) = true ->
  utterances w = [] ->
  step ClickStart w = Some w1 ->
  exists w2,
    step UtteranceEnd w1 = Some w2
    /\ questionCount (store w2) = 1
    /\ utterances w2 = []
    /\ timers w2 =
       if questionCount (store w) <? 5
       then timers w ++ [rendered w]
       else timers w.
Proof.
  intros Hreach Hon Hu Hstep.
  pose proof (reachable_consistent cap w Hreach) as [_ Hsnap _ _].
  assert (Hw1 : commit (startInterview (rendered w) w) = w1)
    by (cbn [step] in Hstep; congruence).
  assert (Hon' : isInterviewActive (snap (rendered w)) = true)
    by now rewrite Hsnap.
  destruct (startInterview_when_active (rendered w) w Hon')
    as (Hs & Hu0 & Ht0 & _).
  pose proof (store_commit (startInterview (rendered w) w)) as Hs1.
  destruct (commit_queues (startInterview (rendered w) w))
    as (_ & Hu1 & Ht1 & _).
  rewrite Hw1 in Hs1, Hu1, Ht1.
  rewrite Hs in Hs1. rewrite Hu0, Hu in Hu1. rewrite Ht0 in Ht1.
  cbn [app] in Hu1.
  cbn [step]. rewrite Hu1. eexists. split; [reflexivity |].
  rewrite store_commit, counter_utterance_onend.
  destruct (commit_queues
              (utterance_onend (rendered w) (with_utterances [] w1)))
    as (_ & -> & -> & _).
  unfold utterance_onend. rewrite Hsnap, Hon. cbn [andb].
  destruct (questionCount (store w) <? 5); cbn; rewrite ?Ht1, Hs1; auto.
Qed.

Lemma restart_listens_iff_counter_was_low_witness :
  exists w w1 w2,
    session (five_answers ++ [UtteranceEnd; TimerFires 0; Silence 1]) = Some w
    /\ questionCount (store w) = 6
    /\ step ClickStart w = Some w1
    /\ step UtteranceEnd w1 = Some w2
    /\ questionCount (store w2) = 1
    /\ utterances w2 = [] /\ timers w2 = [].
Proof.
  assert (H : exists w w1,
             session (five_answers ++ [UtteranceEnd; TimerFires 0; Silence 1])
             = Some w
             /\ step ClickStart w = Some w1
             /\ isInterviewActive (store w) = true
             /\ utterances w = [] /\ timers w = []
             /\ questionCount (store w) = 6).
  { do 2 eexists. split; [vm_compute; reflexivity |].
    split; [vm_compute; reflexivity |]. repeat split. }
  destruct H as (w & w1 & Hrun & Hstep & Hon & Hu & Ht & Hq).
  destruct (restart_listens_iff_counter_was_low true w w1
              (session_reachable _ _ Hrun) Hon Hu Hstep)
    as (w2 & Hend & Hq2 & Hu2 & Ht2).
  exists w, w1, w2. rewrite Hq, Ht in Ht2. repeat split; assumption.
Defined.

Lemma inflight_sendToGemini_resume (e : Render) (uc : list Message)
    (o : Outcome) (w : World) :
  inflight (sendToGemini_resume e uc o w) = inflight w.
Proof. open_handlers. destruct o; sound_cases; reflexivity. Qed.

(** X16.  A parsed reply replaces the transcript by the transcript its
    request carried followed by the interviewer's turn: whatever the store
    held when the reply arrived (the turns of a later exchange, or the empty
    transcript of a session started in between) is discarded.  The reply is
    displayed, the counter advances by one and the busy flag is cleared. *)
Theorem reply_replaces_transcript (w w' : World) (i : nat) (e : Render)
    (uc : list Message) (data : Js) :
  nth_error (inflight w) i = Some (e, uc) ->
  step (Reply i (Parsed data)) w = Some w' ->
  conversation (store w') = uc ++ [mkMessage model (aiReply data)]
  /\ aiText (store w') = aiReply data
  /\ questionCount (store w') = questionCount (store w) + 1
  /\ isProcessing (store w') = false
  /\ inflight w' = drop_nth i (inflight w).
Proof.
  intros Hnth Hstep. cbn [step] in Hstep. rewrite Hnth in Hstep.
  injection Hstep as <-. rewrite store_commit.
  match goal with
  | |- context [sendToGemini_resume e uc (Parsed data) ?w0] =>
      destruct (resume_parsed e uc data w0) as (-> & -> & -> & -> & _);
      rewrite (proj1 (proj2 (proj2 (proj2
                 (commit_queues (sendToGemini_resume e uc (Parsed data) w0))))));
      rewrite inflight_sendToGemini_resume
  end.
  repeat split.
Qed.

Lemma reply_replaces_transcript_witness :
  exists w w',
    session (first_answer ++ [ClickStart]) = Some w
    /\ conversation (store w) = []
    /\ step (Reply 0 (question "Question 2?")) w = Some w'
    /\ conversation (store w')
       = [mkMessage user (JStr "I am Ada.")]
           ++ [mkMessage model (aiReply (payload (JStr "Question 2?")))].
Proof.
  assert (H : exists w w',
             session (first_answer ++ [ClickStart]) = Some w
             /\ conversation (store w) = []
             /\ step (Reply 0 (question "Question 2?")) w = Some w'
             /\ nth_error (inflight w) 0
                = Some (first_render, [mkMessage user (JStr "I am Ada.")])).
  { do 2 eexists. split; [vm_compute; reflexivity |].
    split; [reflexivity |]. split; [vm_compute; reflexivity | reflexivity]. }
  destruct H as (w & w' & Hrun & Hc & Hstep & Hnth).
  exists w, w'. repeat split; try assumption.
  exact (proj1 (reply_replaces_transcript w w' 0 _ _ _ Hnth Hstep)).
Defined.

(** X13.  [startListening] of a render whose recognizer is not listening
    starts it exactly when that render saw the session active and idle. *)
Theorem startListening_starts_iff (e : Render) (r : nat) (w : World) :
  recognition e = Some r ->
  is_listening r w = false ->
  is_listening r (startListening e w) = true
  <-> isProcessing (snap e) = false /\ isInterviewActive (snap e) = true.
Proof.
  intros Hrec Hidle. split.
  - intros Hstarted.
    destruct (isProcessing (snap e)) eqn:Hp.
    + rewrite startListening_refuses in Hstarted by now left. congruence.
    + destruct (isInterviewActive (snap e)) eqn:Ha; [now split |].
      rewrite startListening_refuses in Hstarted by now right. congruence.
  - intros [Hp Ha]. now apply startListening_starts.
Qed.

Lemma startListening_starts_iff_witness :
  is_listening 1 (startListening first_render (initial_world true)) = true.
Proof.
  apply (startListening_starts_iff first_render 1 (initial_world true));
    [reflexivity | reflexivity | split; reflexivity].
Defined.

(** X14.  When a recognizer ends without a result nothing takes its place:
    it no longer listens, and the store, the speech queue, the timers, the
    requests and the log are as they were.  No listening is restarted. *)
Theorem silence_ends_quietly (r : nat) (w w' : World) :
  step (Silence r) w = Some w' ->
  is_listening r w' = false
  /\ store w' = store w
  /\ utterances w' = utterances w
  /\ timers w' = timers w
  /\ inflight w' = inflight w
  /\ log w' = log w.
Proof.
  intros Hstep. cbn [step] in Hstep.
  destruct (is_listening r w); [| discriminate]. injection Hstep as <-.
  unfold recognition_onend, skip. rewrite store_commit.
  match goal with
  | |- context [commit ?w0] =>
      destruct (commit_queues w0) as (Hl & -> & -> & -> & -> & _)
  end.
  repeat split. unfold is_listening. rewrite Hl. cbn.
  apply not_true_is_false. intros Hex.
  apply existsb_exists in Hex. destruct Hex as (x & Hin & Hsame).
  apply filter_In in Hin. destruct Hin as [_ Hneg].
  rewrite Hsame in Hneg. discriminate.
Qed.

Lemma silence_ends_quietly_witness :
  exists w w',
    session awaiting_answer = Some w
    /\ step (Silence 1) w = Some w'
    /\ listening w' = [] /\ timers w' = [] /\ utterances w' = []
    /\ inflight w' = [].
Proof.
  assert (H : exists w w',
             session awaiting_answer = Some w
             /\ step (Silence 1) w = Some w'
             /\ utterances w = [] /\ timers w = [] /\ inflight w = []
             /\ listening w' = []).
  { do 2 eexists. split; [vm_compute; reflexivity |].
    split; [vm_compute; reflexivity |]. repeat split. }
  destruct H as (w & w' & Hrun & Hstep & Hu & Ht & Hf & Hl).
  destruct (silence_ends_quietly 1 w w' Hstep) as (_ & _ & Hu' & Ht' & Hf' & _).
  exists w, w'. rewrite Hu', Ht', Hf'. repeat split; assumption.
Defined.

(** X15.  "Stop" writes three cells and no other: the transcript, the
    answer shown and the busy flag keep their values.  A second "Stop"
    leaves the store as the first one left it. *)
Theorem stop_keeps_the_rest (w w1 w2 : World) :
  step ClickStop w = Some w1 ->
  step ClickStop w1 = Some w2 ->
  store w1 = mkState (conversation (store w)) (userText (store w))
                     (JStr endedText) 5 (isProcessing (store w)) false
  /\ store w2 = store w1.
Proof.
  assert (Hstop : forall e w0,
             store (stopInterview e w0)
             = mkState (conversation (store w0)) (userText (store w0))
                       (JStr endedText) 5 (isProcessing (store w0)) false).
  { intros e w0. unfold stopInterview, seq, stopListening, skip.
    destruct (recognition e); reflexivity. }
  intros H1 H2. cbn [step] in H1, H2.
  injection H1 as <-. injection H2 as <-.
  rewrite !store_commit, !Hstop, !store_commit, !Hstop. split; reflexivity.
Qed.

Lemma stop_keeps_the_rest_witness :
  exists w w1 w2,
    session first_answer = Some w
    /\ step ClickStop w = Some w1 /\ step ClickStop w1 = Some w2
    /\ isProcessing (store w2) = true
    /\ userText (store w2) = "I am Ada.".
Proof.
  assert (H : exists w w1 w2,
             session first_answer = Some w
             /\ step ClickStop w = Some w1 /\ step ClickStop w1 = Some w2
             /\ isProcessing (store w) = true
             /\ userText (store w) = "I am Ada.").
  { do 3 eexists. split; [vm_compute; reflexivity |].
    split; [vm_compute; reflexivity |]. split; [vm_compute; reflexivity |].
    split; reflexivity. }
  destruct H as (w & w1 & w2 & Hrun & H1 & H2 & Hp & Hu).
  destruct (stop_keeps_the_rest w w1 w2 H1 H2) as [E1 E2].
  exists w, w1, w2. rewrite E2, E1. cbn. repeat split; assumption.
Defined.

(** ** The general lemmas at concrete sessions *)

Lemma counter_after_step_witness :
  exists w w',
    session first_answer = Some w
    /\ step (Reply 0 BodyRejected) w = Some w'
    /\ questionCount (store w') = questionCount (store w).
Proof.
  assert (H : exists w w',
             session first_answer = Some w
             /\ step (Reply 0 BodyRejected) w = Some w').
  { do 2 eexists. split; vm_compute; reflexivity. }
  destruct H as (w & w' & Hrun & Hstep). exists w, w'.
  split; [exact Hrun |]. split; [exact Hstep |].
  exact (counter_after_step (Reply 0 BodyRejected) w w' Hstep).
Defined.

Lemma stop_button_witness :
  exists w w',
    session awaiting_answer = Some w
    /\ step ClickStop w = Some w'
    /\ listening w' = [first_render].
Proof.
  assert (H : exists w w',
             session awaiting_answer = Some w
             /\ step ClickStop w = Some w'
             /\ listening w = [first_render]).
  { do 2 eexists. split; [vm_compute; reflexivity |].
    split; [vm_compute; reflexivity | reflexivity]. }
  destruct H as (w & w' & Hrun & Hstep & Hl). exists w, w'.
  split; [exact Hrun |]. split; [exact Hstep |].
  destruct (stop_button true w w' (session_reachable _ _ Hrun) Hstep)
    as (_ & _ & _ & _ & Hl' & _).
  now rewrite Hl'.
Defined.

Lemma start_from_inactive_is_silent_witness :
  exists w w',
    session (awaiting_answer ++ [Silence 1; ClickStop]) = Some w
    /\ step ClickStart w = Some w'
    /\ isInterviewActive (store w') = true
    /\ utterances w' = [].
Proof.
  assert (H : exists w w',
             session (awaiting_answer ++ [Silence 1; ClickStop]) = Some w
             /\ step ClickStart w = Some w'
             /\ isInterviewActive (store w) = false
             /\ utterances w = []).
  { do 2 eexists. split; [vm_compute; reflexivity |].
    split; [vm_compute; reflexivity |]. split; reflexivity. }
  destruct H as (w & w' & Hrun & Hstep & Hoff & Hu). exists w, w'.
  split; [exact Hrun |]. split; [exact Hstep |].
  destruct (start_from_inactive_is_silent true w w'
              (session_reachable _ _ Hrun) Hoff Hstep) as (Hs & Hu' & _).
  rewrite Hs, Hu', Hu. split; reflexivity.
Defined.

Lemma capture_always_requests_witness :
  exists w w',
    session eager_start = Some w
    /\ isProcessing (store w) = true
    /\ step (Result 2 "Anyone?") w = Some w'
    /\ List.length (inflight w') = 2%nat.
Proof.
  assert (H : exists w,
             session eager_start = Some w
             /\ isProcessing (store w) = true
             /\ List.length (inflight w) = 1%nat
             /\ exists e, find (same_recognizer 2) (listening w) = Some e).
  { eexists. split; [vm_compute; reflexivity |].
    split; [reflexivity |]. split; [reflexivity |]. eexists. reflexivity. }
  destruct H as (w & Hrun & Hbusy & Hlen & e & Hfind).
  destruct (capture_always_requests true w 2 e "Anyone?"
              (session_reachable _ _ Hrun) Hfind) as (w' & Hstep & Hin & _).
  exists w, w'. split; [exact Hrun |]. split; [exact Hbusy |].
  split; [exact Hstep |].
  rewrite Hin, length_app, Hlen. reflexivity.
Defined.

Lemma reply_is_always_spoken_witness :
  exists w w',
    session (first_answer ++ [ClickStop]) = Some w
    /\ isInterviewActive (store w) = false
    /\ step (Reply 0 (question "Question 2?")) w = Some w'
    /\ utterances w'
       = [(aiReply (payload (JStr "Question 2?")), first_render)].
Proof.
  assert (H : exists w w',
             session (first_answer ++ [ClickStop]) = Some w
             /\ isInterviewActive (store w) = false
             /\ step (Reply 0 (question "Question 2?")) w = Some w'
             /\ utterances w = []
             /\ nth_error (inflight w) 0
                = Some (first_render, [mkMessage user (JStr "I am Ada.")])).
  { do 2 eexists. split; [vm_compute; reflexivity |].
    split; [reflexivity |]. split; [vm_compute; reflexivity |].
    split; reflexivity. }
  destruct H as (w & w' & Hrun & Hoff & Hstep & Hu & Hnth). exists w, w'.
  split; [exact Hrun |]. split; [exact Hoff |]. split; [exact Hstep |].
  rewrite (reply_is_always_spoken true w w' 0 _ _ _
             (session_reachable _ _ Hrun) Hnth Hstep), Hu.
  reflexivity.
Defined.

Lemma speak_active_log_witness :
  log (speak first_render (JStr firstQuestion) (initial_world true))
  = [RecognitionStop 1; SynthesisSpeak (JStr firstQuestion)].
Proof.
  exact (proj1 (speak_active_log first_render 1 (JStr firstQuestion)
                  (initial_world true) eq_refl eq_refl)).
Defined.
